(** * Amazon Elastic Load Balancing driver (libcloud/loadbalancer/drivers/elb.py)

    A shallow embedding of [ElasticLBDriver]: the parameter maps it builds,
    the requests it issues through its connection, the objects it builds
    from the XML it gets back, and the cached [_members] list it mutates. *)

From Stdlib Require Import Ascii.
From stdpp Require Import gmap strings list fin_maps pretty.


(** ** Python values and exceptions *)

(** The values that flow through the driver's arguments, the fields of its
    objects and the parameter maps: [None], integers and strings. *)
Inductive value :=
  | VNone
  | VInt (n : Z)
  | VStr (s : string).

#[global] Instance value_eq_dec : EqDecision value.
Proof. solve_decision. Defined.

(** [str(v)] *)
Definition py_str (v : value) : string :=
  match v with
  | VNone => "None"
  | VInt n => pretty n
  | VStr s => s
  end.

(** The exceptions a call of the driver can end in.  [IndexError] is what a
    subscript out of range raises ([l[0]] on an empty list, [t[3]] on a
    3-tuple), [AttributeError] what a missing attribute or method raises,
    [TypeError] what iterating a non-iterable raises; [TransportError] stands
    for whatever [connection.request] raises, which the driver never catches. *)
Inductive exn :=
  | IndexError
  | AttributeError
  | TypeError
  | TransportError (reason : string).

#[global] Instance exn_eq_dec : EqDecision exn.
Proof. solve_decision. Defined.

(** The classes of failure: those of a transport, the two kinds of checked
    error (not found, invalid argument), the fault of a subscript out of
    range, and the other faults of the Python runtime. *)
Inductive error_class :=
  | TransportFailure
  | NotFound
  | InvalidArgument
  | IndexingFault
  | OtherFault.

#[global] Instance error_class_eq_dec : EqDecision error_class.
Proof. solve_decision. Defined.

(** The driver has no [raise] of its own: what a call ends in is raised by
    the connection or by the Python runtime. *)
Definition class_of (e : exn) : error_class :=
  match e with
  | IndexError => IndexingFault
  | AttributeError | TypeError => OtherFault
  | TransportError _ => TransportFailure
  end.

Inductive Result (A : Type) :=
  | Ok (a : A)
  | Raise (e : exn).
Arguments Ok {A} a.
Arguments Raise {A} e.

(** ** Strings *)

(** [c.upper()] on one character: the 26 ASCII lower-case letters move to
    upper case, every other byte stays. *)
Definition ascii_upper (c : ascii) : ascii :=
  let n := N_of_ascii c in
  if ((97 <=? n) && (n <=? 122))%N then ascii_of_N (n - 32) else c.

(** [s.upper()] *)
Fixpoint upper (s : string) : string :=
  match s with
  | EmptyString => EmptyString
  | String c s' => String (ascii_upper c) (upper s')
  end.

(** [v.upper()]: only strings have the method. *)
Definition py_upper (v : value) : Result string :=
  match v with
  | VStr s => Ok (upper s)
  | _ => Raise AttributeError
  end.

(** [t[i]] on a tuple or list. *)
Definition subscript {A} (t : list A) (i : nat) : Result A :=
  match t !! i with
  | Some x => Ok x
  | None => Raise IndexError
  end.

(** [s.split('/')] *)
Fixpoint split_slash (s : string) : list string :=
  match s with
  | EmptyString => [EmptyString]
  | String c s' =>
      if Ascii.eqb c "/"%char then EmptyString :: split_slash s'
      else match split_slash s' with
           | h :: t => String c h :: t
           | [] => [String c EmptyString]
           end
  end.

(** [enumerate(xs, start)] *)
Fixpoint enumerate {A} (start : nat) (xs : list A) : list (nat * A) :=
  match xs with
  | [] => []
  | x :: xs' => (start, x) :: enumerate (S start) xs'
  end.

(** [fmt % n] for a format with one [%d] in it. *)
Fixpoint format_d (fmt : string) (n : nat) : string :=
  match fmt with
  | EmptyString => EmptyString
  | String c rest =>
      match rest with
      | String c' rest' =>
          if Ascii.eqb c "%"%char && Ascii.eqb c' "d"%char
          then pretty n +:+ rest'
          else String c (format_d rest n)
      | EmptyString => String c EmptyString
      end
  end.

(** ** Module constants *)

Definition VERSION : string := "2012-06-01".
Definition HOST (region : string) : string :=
  "elasticloadbalancing." +:+ region +:+ ".amazonaws.com".
Definition ROOT : string := "/" +:+ VERSION +:+ "/".
Definition NS : string :=
  "http://elasticloadbalancing.amazonaws.com/doc/" +:+ VERSION +:+ "/".

(** [httplib.OK] *)
Definition OK : Z := 200.

(** ** The XML utility (libcloud.utils.xml) *)

(** An element of a parsed response: its tag in ElementTree's qualified form
    ["{namespace}name"], its text and its children in document order. *)
#[local] Unset Elimination Schemes.
Inductive Element :=
  | Elem (tag : string) (text : option string) (children : list Element).
#[local] Set Elimination Schemes.

Definition el_tag (e : Element) : string := let 'Elem t _ _ := e in t.
Definition el_text (e : Element) : option string := let 'Elem _ t _ := e in t.
Definition el_children (e : Element) : list Element := let 'Elem _ _ c := e in c.

(** [m.text] as a Python value. *)
Definition text_value (e : Element) : value :=
  match el_text e with Some s => VStr s | None => VNone end.

(** Modelled from the spec: libcloud.utils.xml is not part of the sources at
    hand.  The path is qualified step by step with the namespace; the steps
    are kept as a list. *)
Definition fixxpath (xpath namespace : string) : list string :=
  (λ e, "{" +:+ namespace +:+ "}" +:+ e) <$> split_slash xpath.

(** One step of a path: the children with the given tag, in document order. *)
Definition step (es : list Element) (tag : string) : list Element :=
  es ≫= (λ e, filter (λ c, el_tag c = tag) (el_children e)).

(** Modelled from the spec: [find_all(element, path, namespace)], the
    sequence of the elements reached from [element] along [path]. *)
Definition findall (element : Element) (xpath namespace : string) : list Element :=
  foldl step [element] (fixxpath xpath namespace).

(** Modelled from the spec: [find_text(element, path, namespace)], a string
    or [None]: the text of the first element on the path (the empty string
    when that element has no text), [None] when there is no such element. *)
Definition findtext (element : Element) (xpath namespace : string) : value :=
  match findall element xpath namespace with
  | e :: _ => VStr (default "" (el_text e))
  | [] => VNone
  end.

(** ** The domain model (libcloud.loadbalancer.base and .types) *)

Definition loc := nat.

(** A reference to a Python object: the driver itself or an object on the
    heap. *)
Inductive pyref :=
  | DriverRef
  | ObjRef (l : loc).

#[global] Instance pyref_eq_dec : EqDecision pyref.
Proof. solve_decision. Defined.

(** Modelled from the spec: the State enumeration, of which the spec names
    PENDING, ACTIVE and UNKNOWN. *)
Inductive State := PENDING | ACTIVE | UNKNOWN.

#[global] Instance State_eq_dec : EqDecision State.
Proof. solve_decision. Defined.

(** Modelled from the spec: [Member(id, ip, port, balancer)]. *)
Record Member := {
  m_id : value;
  m_ip : value;
  m_port : value;
  m_balancer : pyref
}.

#[global] Instance Member_eq_dec : EqDecision Member.
Proof. solve_decision. Defined.

(** Modelled from the spec: [LoadBalancer(id, name, state, ip, port, driver)].
    The attribute [_members] is not set by the constructor: the driver
    assigns it afterwards, a reference to a list object. *)
Record LoadBalancer := {
  lb_id : value;
  lb_name : value;
  lb_state : State;
  lb_ip : value;
  lb_port : value;
  lb_driver : pyref;
  lb_members : option loc
}.

(** A compute node; the driver reads its [id] only. *)
Record Node := { node_id : value }.

Inductive obj :=
  | OBalancer (b : LoadBalancer)
  | OList (ms : list Member).

(** ** The connection and the world *)

Record Request := {
  req_path : string;
  req_params : gmap string value
}.

Record Response := {
  object : Element;
  status : Z
}.

(** The heap of balancer and list objects, and the requests issued so far,
    oldest first. *)
Record World := {
  heap : list obj;
  sent : list Request
}.

(** [SignedAWSConnection], of which the driver uses [request] only: what
    comes back may depend on everything sent before. *)
Record ELBConnection := {
  host : string;
  respond : list Request → Request → Result Response
}.

Record ElasticLBDriver := {
  region : string;
  connection : ELBConnection
}.

(** [ElasticLBDriver.__init__]: the base class supplies the connection; the
    driver keeps the region and sets the host of the connection from it. *)
Definition ElasticLBDriver_init (conn : ELBConnection) (region : string)
    : ElasticLBDriver :=
  {| region := region;
     connection := {| host := HOST region; respond := respond conn |} |}.

(** ** A state and exception monad *)

Definition M (A : Type) : Type := World → Result A * World.

Definition ret {A} (a : A) : M A := λ w, (Ok a, w).
Definition raise {A} (e : exn) : M A := λ w, (Raise e, w).
Definition bind {A B} (m : M A) (f : A → M B) : M B :=
  λ w, match m w with
       | (Ok a, w') => f a w'
       | (Raise e, w') => (Raise e, w')
       end.
Definition lift {A} (r : Result A) : M A := λ w, (r, w).

Notation "x <~ m ;; f" := (bind m (λ x, f))
  (at level 100, m at next level, right associativity).
Notation "m ;;; f" := (bind m (λ _, f))
  (at level 100, right associativity).

(** [[f(x) for x in xs]] *)
Fixpoint mapM {A B} (f : A → M B) (xs : list A) : M (list B) :=
  match xs with
  | [] => ret []
  | x :: xs' => y <~ f x ;; ys <~ mapM f xs' ;; ret (y :: ys)
  end.

(** [for x in xs: f(x)] *)
Fixpoint forM_ {A} (xs : list A) (f : A → M unit) : M unit :=
  match xs with
  | [] => ret tt
  | x :: xs' => f x ;;; forM_ xs' f
  end.

(** [for x in xs: acc = f(acc, x)] *)
Fixpoint foldM {A S} (f : S → A → M S) (acc : S) (xs : list A) : M S :=
  match xs with
  | [] => ret acc
  | x :: xs' => acc' <~ f acc x ;; foldM f acc' xs'
  end.

(** [self.connection.request(path, params=params)] *)
Definition request (self : ElasticLBDriver) (path : string)
    (params : gmap string value) : M Response :=
  λ w, let r := {| req_path := path; req_params := params |} in
       (respond (connection self) (sent w) r,
        {| heap := heap w; sent := sent w ++ [r] |}).

(** Object allocation: a new object gets the next free location. *)
Definition alloc (o : obj) : M loc :=
  λ w, (Ok (length (heap w)), {| heap := heap w ++ [o]; sent := sent w |}).

Definition read_balancer (b : loc) : M LoadBalancer :=
  λ w, match heap w !! b with
       | Some (OBalancer lb) => (Ok lb, w)
       | _ => (Raise AttributeError, w)
       end.

(** [balancer.id] *)
Definition get_id (b : loc) : M value :=
  lb <~ read_balancer b ;; ret (lb_id lb).

(** [balancer._members] *)
Definition get_members (b : loc) : M loc :=
  lb <~ read_balancer b ;;
  match lb_members lb with
  | Some l => ret l
  | None => raise AttributeError
  end.

Definition with_members (lb : LoadBalancer) (l : loc) : LoadBalancer :=
  {| lb_id := lb_id lb; lb_name := lb_name lb; lb_state := lb_state lb;
     lb_ip := lb_ip lb; lb_port := lb_port lb; lb_driver := lb_driver lb;
     lb_members := Some l |}.

(** [balancer._members = l] *)
Definition set_members (b : loc) (l : loc) : M unit :=
  lb <~ read_balancer b ;;
  λ w, (Ok tt,
        {| heap := <[b := OBalancer (with_members lb l)]> (heap w);
           sent := sent w |}).

(** The items of the list object at [l], as a [for] reads them. *)
Definition list_items (l : loc) : M (list Member) :=
  λ w, match heap w !! l with
       | Some (OList ms) => (Ok ms, w)
       | _ => (Raise TypeError, w)
       end.

(** [l.append(m)], in place. *)
Definition list_append (l : loc) (m : Member) : M unit :=
  λ w, match heap w !! l with
       | Some (OList ms) =>
           (Ok tt, {| heap := <[l := OList (ms ++ [m])]> (heap w); sent := sent w |})
       | _ => (Raise AttributeError, w)
       end.

(** ** The driver: parsing helpers *)

Definition list_protocols : list string := ["tcp"; "ssl"; "http"; "https"].

Definition _to_policies (data : Element) : list value :=
  (λ el, findtext el "PolicyName" NS)
    <$> findall data "DescribeLoadBalancerPoliciesResult/PolicyDescriptions/member" NS.

Definition _to_policy_types (data : Element) : list value :=
  (λ el, findtext el "PolicyTypeName" NS)
    <$> findall data "DescribeLoadBalancerPolicyTypesResult/PolicyTypeDescriptions/member" NS.

(** The [Member] that [_to_balancer] builds for one [InstanceId] node. *)
Definition parsed_member (balancer : loc) (m : Element) : Member :=
  {| m_id := text_value m; m_ip := VNone; m_port := VNone;
     m_balancer := ObjRef balancer |}.

Definition _to_balancer (el : Element) : M loc :=
  let name := findtext el "LoadBalancerName" NS in
  let dns_name := findtext el "DNSName" NS in
  let port := findtext el "LoadBalancerPort" NS in
  balancer <~ alloc (OBalancer
    {| lb_id := name; lb_name := name; lb_state := UNKNOWN; lb_ip := dns_name;
       lb_port := port; lb_driver := DriverRef; lb_members := None |}) ;;
  let members := findall el "Instances/member/InstanceId" NS in
  l <~ alloc (OList []) ;;
  set_members balancer l ;;;
  forM_ members (λ m,
    ms <~ get_members balancer ;;
    list_append ms (parsed_member balancer m)) ;;;
  ret balancer.

Definition _to_balancers (data : Element) : M (list loc) :=
  mapM _to_balancer
    (findall data "DescribeLoadBalancersResult/LoadBalancerDescriptions/member" NS).

(** The items argument of [_create_list_params], and so the [policies]
    argument of its two callers: [None], one bare string, or a list. *)
Inductive items_arg :=
  | ItemsNone
  | ItemsStr (s : string)
  | ItemsList (items : list value).

(** [if items:] *)
Definition truthy (items : items_arg) : bool :=
  match items with
  | ItemsNone => false
  | ItemsStr s => negb (String.eqb s "")
  | ItemsList l => negb (bool_decide (l = []))
  end.

Definition _create_list_params (params : gmap string value) (items : items_arg)
    (label : string) : M (gmap string value) :=
  items <~ match items with
           | ItemsStr s => ret [VStr s]
           | ItemsList l => ret l
           | ItemsNone => raise TypeError
           end ;;
  ret (foldl (λ params '(index, item), <[format_d label (index + 1) := item]> params)
         params (enumerate 0 items)).

(** ** The driver: balancers and members *)

Definition list_balancers (self : ElasticLBDriver) : M (list loc) :=
  let params : gmap string value := {[ "Action" := VStr "DescribeLoadBalancers" ]} in
  r <~ request self ROOT params ;;
  _to_balancers (object r).

(** The parameter map [create_balancer] has built when it issues its request. *)
Definition create_balancer_params (self : ElasticLBDriver) (name port : value)
    (protocol : string) (ex_members_availability_zones : option (list string))
    : gmap string value :=
  let ex_members_availability_zones :=
    match ex_members_availability_zones with
    | None => ["a"]
    | Some zs => zs
    end in
  let params : gmap string value :=
    {[ "Action" := VStr "CreateLoadBalancer";
       "LoadBalancerName" := name;
       "Listeners.member.1.InstancePort" := VStr (py_str port);
       "Listeners.member.1.InstanceProtocol" := VStr (upper protocol);
       "Listeners.member.1.LoadBalancerPort" := VStr (py_str port);
       "Listeners.member.1.Protocol" := VStr (upper protocol) ]} in
  foldl (λ params '(i, z),
           let zone := region self +:+ z in
           <[format_d "AvailabilityZones.member.%d" (i + 1) := VStr zone]> params)
    params (enumerate 0 ex_members_availability_zones).

Definition create_balancer (self : ElasticLBDriver) (name port : value)
    (protocol : string) (algorithm : value) (members : list Member)
    (ex_members_availability_zones : option (list string)) : M loc :=
  let params :=
    create_balancer_params self name port protocol ex_members_availability_zones in
  r <~ request self ROOT params ;;
  let data := object r in
  balancer <~ alloc (OBalancer
    {| lb_id := name; lb_name := name; lb_state := PENDING;
       lb_ip := findtext data "DNSName" NS; lb_port := port;
       lb_driver := DriverRef; lb_members := None |}) ;;
  l <~ alloc (OList []) ;;
  set_members balancer l ;;;
  ret balancer.

Definition destroy_balancer (self : ElasticLBDriver) (balancer : loc) : M bool :=
  id <~ get_id balancer ;;
  let params : gmap string value :=
    {[ "Action" := VStr "DeleteLoadBalancer"; "LoadBalancerName" := id ]} in
  request self ROOT params ;;;
  ret true.

Definition get_balancer (self : ElasticLBDriver) (balancer_id : value) : M loc :=
  let params : gmap string value :=
    {[ "Action" := VStr "DescribeLoadBalancers";
       "LoadBalancerNames.member.1" := balancer_id ]} in
  r <~ request self ROOT params ;;
  bs <~ _to_balancers (object r) ;;
  lift (subscript bs 0).

Definition balancer_attach_compute_node (self : ElasticLBDriver) (balancer : loc)
    (node : Node) : M unit :=
  id <~ get_id balancer ;;
  let params : gmap string value :=
    {[ "Action" := VStr "RegisterInstancesWithLoadBalancer";
       "LoadBalancerName" := id;
       "Instances.member.1.InstanceId" := node_id node ]} in
  request self ROOT params ;;;
  ms <~ get_members balancer ;;
  list_append ms
    {| m_id := node_id node; m_ip := VNone; m_port := VNone; m_balancer := DriverRef |}.

Definition balancer_detach_member (self : ElasticLBDriver) (balancer : loc)
    (member : Member) : M bool :=
  id <~ get_id balancer ;;
  let params : gmap string value :=
    {[ "Action" := VStr "DeregisterInstancesFromLoadBalancer";
       "LoadBalancerName" := id;
       "Instances.member.1.InstanceId" := m_id member ]} in
  request self ROOT params ;;;
  old <~ get_members balancer ;;
  ms <~ list_items old ;;
  new <~ alloc (OList (filter (λ m, m_id m ≠ m_id member) ms)) ;;
  set_members balancer new ;;;
  ret true.

Definition balancer_list_members (self : ElasticLBDriver) (balancer : loc) : M loc :=
  get_members balancer.

(** ** The driver: policies and listeners *)

Definition ex_list_balancer_policies (self : ElasticLBDriver) (balancer : loc)
    : M (list value) :=
  id <~ get_id balancer ;;
  let params : gmap string value :=
    {[ "Action" := VStr "DescribeLoadBalancerPolicies"; "LoadBalancerName" := id ]} in
  r <~ request self ROOT params ;;
  ret (_to_policies (object r)).

Definition ex_list_balancer_policy_types (self : ElasticLBDriver) : M (list value) :=
  let params : gmap string value :=
    {[ "Action" := VStr "DescribeLoadBalancerPolicyTypes" ]} in
  r <~ request self ROOT params ;;
  ret (_to_policy_types (object r)).

(** [policy_attributes], when given, is a dict: here the list of its items in the
    order [iteritems()] yields them. *)
Definition ex_create_balancer_policy (self : ElasticLBDriver) (balancer : loc)
    (policy_name policy_type : value)
    (policy_attributes : option (list (value * value))) : M bool :=
  id <~ get_id balancer ;;
  let params : gmap string value :=
    {[ "Action" := VStr "CreateLoadBalancerPolicy"; "LoadBalancerName" := id;
       "PolicyName" := policy_name; "PolicyTypeName" := policy_type ]} in
  let params :=
    match policy_attributes with
    | Some items =>
        foldl (λ params '(index, (name, value)),
                 <[format_d "PolicyAttributes.member.%d.AttributeValue" index := value]>
                 (<[format_d "PolicyAttributes.member.%d.AttributeName" index := name]>
                  params))
          params (enumerate 1 items)
    | None => params
    end in
  response <~ request self ROOT params ;;
  ret (bool_decide (status response = OK)).

Definition ex_delete_balancer_policy (self : ElasticLBDriver) (balancer : loc)
    (policy_name : value) : M bool :=
  id <~ get_id balancer ;;
  let params : gmap string value :=
    {[ "Action" := VStr "DeleteLoadBalancerPolicy"; "LoadBalancerName" := id;
       "PolicyName" := policy_name ]} in
  response <~ request self ROOT params ;;
  ret (bool_decide (status response = OK)).

Definition ex_set_balancer_policies_listener (self : ElasticLBDriver) (balancer : loc)
    (balancer_port : value) (policies : items_arg) : M bool :=
  id <~ get_id balancer ;;
  let params : gmap string value :=
    {[ "Action" := VStr "SetLoadBalancerPoliciesOfListener"; "LoadBalancerName" := id;
       "LoadBalancerPort" := VStr (py_str balancer_port) ]} in
  params <~ (if truthy policies
             then _create_list_params params policies "PolicyNames.member.%d"
             else ret params) ;;
  response <~ request self ROOT params ;;
  ret (bool_decide (status response = OK)).

Definition ex_set_balancer_policies_backend_server (self : ElasticLBDriver)
    (balancer : loc) (instance_port : value) (policies : items_arg) : M bool :=
  id <~ get_id balancer ;;
  let params : gmap string value :=
    {[ "Action" := VStr "SetLoadBalancerPoliciesForBackendServer";
       "LoadBalancerName" := id;
       "InstancePort" := VStr (py_str instance_port) ]} in
  params <~ (if truthy policies
             then _create_list_params params policies "PolicyNames.member.%d"
             else ret params) ;;
  response <~ request self ROOT params ;;
  ret (bool_decide (status response = OK)).

(** One turn of the loop of [ex_create_balancer_listeners]: a listener is a
    tuple, here the list of its elements. *)
Definition listener_params (params : gmap string value) (entry : nat * list value)
    : M (gmap string value) :=
  let '(index, listener) := entry in
  let i := index + 1 in
  p <~ lift (subscript listener 2) ;;
  protocol <~ lift (py_upper p) ;;
  v <~ lift (subscript listener 0) ;;
  let params := <[format_d "Listeners.member.%d.LoadBalancerPort" i := v]> params in
  v <~ lift (subscript listener 1) ;;
  let params := <[format_d "Listeners.member.%d.InstancePort" i := v]> params in
  v <~ lift (subscript listener 2) ;;
  let params := <[format_d "Listeners.member.%d.Protocol" i := v]> params in
  if String.eqb protocol "HTTPS" || String.eqb protocol "SSL" then
    v <~ lift (subscript listener 3) ;;
    ret (<[format_d "Listeners.member.%d.SSLCertificateId" i := v]> params)
  else ret params.

Definition ex_create_balancer_listeners (self : ElasticLBDriver) (balancer : loc)
    (listeners : option (list (list value))) : M bool :=
  id <~ get_id balancer ;;
  let params : gmap string value :=
    {[ "Action" := VStr "CreateLoadBalancerListeners"; "LoadBalancerName" := id ]} in
  params <~ match listeners with
            | None | Some [] => ret params
            | Some listeners => foldM listener_params params (enumerate 0 listeners)
            end ;;
  response <~ request self ROOT params ;;
  ret (bool_decide (status response = OK)).

(** A computation that leaves the world as it found it: no request, no
    allocation, no mutation. *)
Definition silent {A} (m : M A) : Prop := ∀ w, (m w).2 = w.

(** The loops that add one parameter per item: [params[key(i + 1)] = val(x)]
    for [(i, x)] in [enumerate(xs, start)]. *)
Definition indexed {A} (key : nat → string) (val : A → value)
    (base : gmap string value) (start : nat) (xs : list A) : gmap string value :=
  foldl (λ params '(i, x), <[key (i + 1) := val x]> params) base
    (enumerate start xs).

(** ** Derived notions used in the statements *)

(** The listener block and the header of [create_balancer]'s parameters. *)
Definition create_balancer_base (name port : value) (protocol : string)
    : gmap string value :=
  {[ "Action" := VStr "CreateLoadBalancer";
     "LoadBalancerName" := name;
     "Listeners.member.1.InstancePort" := VStr (py_str port);
     "Listeners.member.1.InstanceProtocol" := VStr (upper protocol);
     "Listeners.member.1.LoadBalancerPort" := VStr (py_str port);
     "Listeners.member.1.Protocol" := VStr (upper protocol) ]}.

(** The balancer at [b] is the one [_to_balancer] builds from [el]: its
    fields read from the fragment, state UNKNOWN, and a [_members] list with
    one member per [InstanceId] node, each pointing back to [b]. *)
Definition parsed_from (h : list obj) (b : loc) (el : Element) : Prop :=
  ∃ l,
    h !! b = Some (OBalancer
      {| lb_id := findtext el "LoadBalancerName" NS;
         lb_name := findtext el "LoadBalancerName" NS;
         lb_state := UNKNOWN;
         lb_ip := findtext el "DNSName" NS;
         lb_port := findtext el "LoadBalancerPort" NS;
         lb_driver := DriverRef;
         lb_members := Some l |}) ∧
    h !! l = Some (OList (parsed_member b <$> findall el "Instances/member/InstanceId" NS)).

(** The balancer fragments of a describe response. *)
Definition balancer_fragments (data : Element) : list Element :=
  findall data "DescribeLoadBalancersResult/LoadBalancerDescriptions/member" NS.

(** The request [get_balancer] issues. *)
Definition get_balancer_request (balancer_id : value) : Request :=
  {| req_path := ROOT;
     req_params := {[ "Action" := VStr "DescribeLoadBalancers";
                      "LoadBalancerNames.member.1" := balancer_id ]} |}.

(** The request [list_balancers] issues. *)
Definition list_balancers_request : Request :=
  {| req_path := ROOT;
     req_params := {[ "Action" := VStr "DescribeLoadBalancers" ]} |}.

(** The outcome of a call is a failure of the given class. *)
Definition fails_with_class {A} (out : Result A * World) (c : error_class) : Prop :=
  ∃ e, out.1 = Raise e ∧ class_of e = c.

(** The balancer at [b] has state UNKNOWN and, as its port, what [findtext]
    gives for the [LoadBalancerPort] node of [el]: a string or [None]. *)
Definition unknown_with_text_port (h : list obj) (b : loc) (el : Element) : Prop :=
  ∃ lb,
    h !! b = Some (OBalancer lb) ∧
    lb_state lb = UNKNOWN ∧
    lb_port lb = findtext el "LoadBalancerPort" NS ∧
    (lb_port lb = VNone ∨ ∃ s, lb_port lb = VStr s).

(** The request [balancer_attach_compute_node] issues. *)
Definition attach_request (id : value) (node : Node) : Request :=
  {| req_path := ROOT;
     req_params := {[ "Action" := VStr "RegisterInstancesWithLoadBalancer";
                      "LoadBalancerName" := id;
                      "Instances.member.1.InstanceId" := node_id node ]} |}.

(** The request [balancer_detach_member] issues. *)
Definition detach_request (id : value) (member : Member) : Request :=
  {| req_path := ROOT;
     req_params := {[ "Action" := VStr "DeregisterInstancesFromLoadBalancer";
                      "LoadBalancerName" := id;
                      "Instances.member.1.InstanceId" := m_id member ]} |}.

(** The balancer at [b] and the content of its cached [_members] list at [l]. *)
Definition has_members (h : list obj) (b : loc) (lb : LoadBalancer) (l : loc)
    (ms : list Member) : Prop :=
  h !! b = Some (OBalancer lb) ∧ lb_members lb = Some l ∧ h !! l = Some (OList ms).

(** The common end of the policy and listener operations: send the
    parameters built, return whether the status of the response is OK. *)
Definition status_op (self : ElasticLBDriver) (build : M (gmap string value)) : M bool :=
  params <~ build ;;
  response <~ request self ROOT params ;;
  ret (bool_decide (status response = OK)).

(** Whenever a run of [op] has issued a request and the connection has
    answered it with a response, [op] returns whether the status of that
    response is OK; so false, and no exception, on any other status. *)
Definition returns_status (self : ElasticLBDriver) (op : M bool) : Prop :=
  ∀ w rq r,
    sent (op w).2 = sent w ++ [rq] →
    respond (connection self) (sent w) rq = Ok r →
    (op w).1 = Ok (bool_decide (status r = OK)) ∧
    (status r ≠ OK → (op w).1 = Ok false).

(** The policy names a [policies] argument stands for: none when it is
    falsy, the string itself when it is a bare string. *)
Definition policy_names (policies : items_arg) : list value :=
  match policies with
  | ItemsNone => []
  | ItemsStr s => if String.eqb s "" then [] else [VStr s]
  | ItemsList l => l
  end.

(** The three parameters the two policy-setting operations always send: the
    action, the name of the balancer and the port under its key. *)
Definition set_policies_base (action port_key : string) (id port : value)
    : gmap string value :=
  {[ "Action" := VStr action; "LoadBalancerName" := id;
     port_key := VStr (py_str port) ]}.

(** A string without a dot, as the decimal numerals are. *)
Fixpoint dotless (s : string) : Prop :=
  match s with
  | EmptyString => True
  | String c s' => c ≠ "."%char ∧ dotless s'
  end.

(** The test of [ex_create_balancer_listeners] on a protocol:
    [protocol.upper() == 'HTTPS' or protocol.upper() == 'SSL']. *)
Definition is_tls (protocol : string) : bool :=
  String.eqb (upper protocol) "HTTPS" || String.eqb (upper protocol) "SSL".

(** A listener tuple the loop gets through: at least three elements, the
    third a string, and a fourth one when the protocol is HTTPS or SSL. *)
Definition listener_ok (listener : list value) : Prop :=
  ∃ x y protocol rest,
    listener = x :: y :: VStr protocol :: rest ∧ (is_tls protocol = true → rest ≠ []).

(** The certificate a listener tuple makes the loop transmit, if any. *)
Definition certificate_of (listener : list value) : option value :=
  match listener !! 2 with
  | Some (VStr protocol) => if is_tls protocol then listener !! 3 else None
  | _ => None
  end.

(** The parameters after one turn of the loop that went through, for the
    listener with number [i]. *)
Definition listener_block (params : gmap string value) (i : nat)
    (listener : list value) : gmap string value :=
  match listener with
  | x :: y :: p :: rest =>
      let params :=
        <[format_d "Listeners.member.%d.Protocol" i := p]>
        (<[format_d "Listeners.member.%d.InstancePort" i := y]>
        (<[format_d "Listeners.member.%d.LoadBalancerPort" i := x]> params)) in
      match certificate_of listener with
      | Some c => <[format_d "Listeners.member.%d.SSLCertificateId" i := c]> params
      | None => params
      end
  | _ => params
  end.

(** The parameters after the whole loop, when every turn went through. *)
Fixpoint listener_blocks (params : gmap string value) (start : nat)
    (listeners : list (list value)) : gmap string value :=
  match listeners with
  | [] => params
  | listener :: rest =>
      listener_blocks (listener_block params (start + 1) listener) (S start) rest
  end.

(** The first two parameters of [ex_create_balancer_listeners]. *)
Definition listeners_base (id : value) : gmap string value :=
  {[ "Action" := VStr "CreateLoadBalancerListeners"; "LoadBalancerName" := id ]}.

(** ** Sample data *)

Definition qname (name : string) : string := "{" +:+ NS +:+ "}" +:+ name.

Definition sample_balancer (name port : string) (instances : list string) : Element :=
  Elem (qname "member") None
    [Elem (qname "LoadBalancerName") (Some name) [];
     Elem (qname "DNSName") (Some (name +:+ ".elb.amazonaws.com")) [];
     Elem (qname "LoadBalancerPort") (Some port) [];
     Elem (qname "Instances") None
       ((λ i, Elem (qname "member") None [Elem (qname "InstanceId") (Some i) []])
          <$> instances)].

Definition sample_describe (balancers : list Element) : Element :=
  Elem (qname "DescribeLoadBalancersResponse") None
    [Elem (qname "DescribeLoadBalancersResult") None
       [Elem (qname "LoadBalancerDescriptions") None balancers]].

(** A connection that answers every request with the same document and
    status. *)
Definition fixed_connection (data : Element) (code : Z) : ELBConnection :=
  {| host := HOST "us-east-1";
     respond := λ _ _, Ok {| object := data; status := code |} |}.

Definition sample_driver (data : Element) (code : Z) : ElasticLBDriver :=
  ElasticLBDriver_init (fixed_connection data code) "us-east-1".

Definition empty_world : World := {| heap := []; sent := [] |}.

(** A world with one balancer, named lb1, and its cached member list with one
    member. *)
Definition sample_world : World :=
  {| heap :=
       [OBalancer {| lb_id := VStr "lb1"; lb_name := VStr "lb1"; lb_state := UNKNOWN;
                     lb_ip := VStr "lb1.elb.amazonaws.com"; lb_port := VStr "80";
                     lb_driver := DriverRef; lb_members := Some 1 |};
        OList [{| m_id := VStr "i-1"; m_ip := VNone; m_port := VNone;
                  m_balancer := ObjRef 0 |}]];
     sent := [] |}.

(** ** Notions for the driver as a whole *)

(** A computation that issues no request; it may allocate and mutate. *)
Definition mute {A} (m : M A) : Prop := ∀ w, sent (m w).2 = sent w.

(** The shape every operation that talks to the provider has: compute
    something first, build the parameters from it, issue one request and work
    on the response. *)
Definition request_op {A B} (self : ElasticLBDriver) (pre : M A)
    (params : A → gmap string value) (post : A → Response → M B) : M B :=
  a <~ pre ;;
  r <~ request self ROOT (params a) ;;
  post a r.

(** A run issues no request or exactly one, and that one to [ROOT]. *)
Definition at_most_one_request {A} (op : M A) : Prop :=
  ∀ w, sent (op w).2 = sent w ∨
       ∃ P, sent (op w).2 = sent w ++ [{| req_path := ROOT; req_params := P |}].

(** When the connection raises on the request a run has issued, the run ends
    in that same exception and has left the heap as it was. *)
Definition propagates_transport_error {A} (self : ElasticLBDriver) (op : M A) : Prop :=
  ∀ w rq e,
    sent (op w).2 = sent w ++ [rq] →
    respond (connection self) (sent w) rq = Raise e →
    op w = (Raise e, {| heap := heap w; sent := sent w ++ [rq] |}).

(** A run leaves every object as it was and allocates none. *)
Definition keeps_heap {A} (op : M A) : Prop := ∀ w, heap (op w).2 = heap w.

(** A connection that raises on every request. *)
Definition failing_connection (reason : string) : ELBConnection :=
  {| host := HOST "us-east-1"; respond := λ _ _, Raise (TransportError reason) |}.

(** The request [destroy_balancer] issues. *)
Definition destroy_request (id : value) : Request :=
  {| req_path := ROOT;
     req_params := {[ "Action" := VStr "DeleteLoadBalancer";
                      "LoadBalancerName" := id ]} |}.

(** An operation of the shape [request_op], with nothing but reading and
    parameter building before the request and no request after it. *)
Definition has_request_shape {B} (self : ElasticLBDriver) (op : M B) : Prop :=
  ∃ (A : Type) (pre : M A) params post,
    silent pre ∧ (∀ a r, mute (post a r)) ∧
    ∀ w, op w = request_op self pre params post w.

(** The same, with nothing but reading after the request either. *)
Definition has_reading_shape {B} (self : ElasticLBDriver) (op : M B) : Prop :=
  ∃ (A : Type) (pre : M A) params post,
    silent pre ∧ (∀ a r, silent (post a r)) ∧
    ∀ w, op w = request_op self pre params post w.

Definition failing_driver (reason : string) : ElasticLBDriver :=
  ElasticLBDriver_init (failing_connection reason) "us-east-1".

(** A world with one balancer that has no [_members] attribute, as a
    [LoadBalancer] has that the driver did not build. *)
Definition bare_world : World :=
  {| heap :=
       [OBalancer {| lb_id := VStr "lb0"; lb_name := VStr "lb0"; lb_state := ACTIVE;
                     lb_ip := VStr "10.0.0.1"; lb_port := VInt 80;
                     lb_driver := DriverRef; lb_members := None |}];
     sent := [] |}.

(** The balancer object of [sample_world], and that of [bare_world]. *)
Definition sample_lb : LoadBalancer :=
  {| lb_id := VStr "lb1"; lb_name := VStr "lb1"; lb_state := UNKNOWN;
     lb_ip := VStr "lb1.elb.amazonaws.com"; lb_port := VStr "80";
     lb_driver := DriverRef; lb_members := Some 1 |}.

Definition bare_lb : LoadBalancer :=
  {| lb_id := VStr "lb0"; lb_name := VStr "lb0"; lb_state := ACTIVE;
     lb_ip := VStr "10.0.0.1"; lb_port := VInt 80;
     lb_driver := DriverRef; lb_members := None |}.

Definition sample_member : Member :=
  {| m_id := VStr "i-1"; m_ip := VNone; m_port := VNone; m_balancer := ObjRef 0 |}.

(** The key of a parameter that belongs to the [n]-th entry of a list-valued
    field: [prefix], the number, a dot and the name of the entry's field. *)
Definition member_key (prefix : string) (n : nat) (field : string) : string :=
  prefix +:+ pretty n +:+ String "." field.

(** The number of parameters a listener tuple contributes: the two ports and
    the protocol, and the certificate when one is transmitted. *)
Definition listener_param_count (listener : list value) : nat :=
  match certificate_of listener with
  | Some _ => 4
  | None => 3
  end.

(** The loop of [ex_create_balancer_policy] over the items of
    [policy_attributes], numbered from [start]. *)
Definition attribute_params (params : gmap string value) (start : nat)
    (items : list (value * value)) : gmap string value :=
  foldl (λ params '(index, (name, value)),
           <[format_d "PolicyAttributes.member.%d.AttributeValue" index := value]>
           (<[format_d "PolicyAttributes.member.%d.AttributeName" index := name]>
            params))
    params (enumerate start items).

(** The four parameters [ex_create_balancer_policy] always sends. *)
Definition create_policy_base (id policy_name policy_type : value)
    : gmap string value :=
  {[ "Action" := VStr "CreateLoadBalancerPolicy"; "LoadBalancerName" := id;
     "PolicyName" := policy_name; "PolicyTypeName" := policy_type ]}.

(** * Properties *)

(** ** Small runs *)

Example upper_mixed_case : upper "hTtps" = "HTTPS".
Proof. reflexivity. Qed.

Example format_d_middle :
  format_d "Listeners.member.%d.SSLCertificateId" 12 =
  "Listeners.member.12.SSLCertificateId".
Proof. reflexivity. Qed.

Example create_balancer_params_two_zones :
  map_to_list (create_balancer_params (sample_driver (sample_describe []) 200)
                 (VStr "lb1") (VInt 80) "http" (Some ["a"; "b"])) =
  [("Action", VStr "CreateLoadBalancer");
   ("AvailabilityZones.member.1", VStr "us-east-1a");
   ("AvailabilityZones.member.2", VStr "us-east-1b");
   ("LoadBalancerName", VStr "lb1");
   ("Listeners.member.1.InstancePort", VStr "80");
   ("Listeners.member.1.InstanceProtocol", VStr "HTTP");
   ("Listeners.member.1.LoadBalancerPort", VStr "80");
   ("Listeners.member.1.Protocol", VStr "HTTP")].
Proof. vm_compute. reflexivity. Qed.

Example list_balancers_two_fragments :
  (list_balancers
     (sample_driver
        (sample_describe [sample_balancer "lb1" "80" ["i-1"; "i-2"];
                          sample_balancer "lb2" "443" []]) 200)
     empty_world).1 = Ok [0; 2].
Proof. vm_compute. reflexivity. Qed.

(** ** Running the monad *)

Lemma bind_ok {A B} (m : M A) (f : A → M B) w a w' :
  m w = (Ok a, w') → bind m f w = f a w'.
Proof. unfold bind. by intros ->. Qed.

Lemma bind_raise {A B} (m : M A) (f : A → M B) w e w' :
  m w = (Raise e, w') → bind m f w = (Raise e, w').
Proof. unfold bind. by intros ->. Qed.

Lemma bind_assoc {A B C} (m : M A) (f : A → M B) (g : B → M C) w :
  bind (bind m f) g w = bind m (λ a, bind (f a) g) w.
Proof. unfold bind. destruct (m w) as [[a|e] w']; reflexivity. Qed.

Lemma silent_ret {A} (a : A) : silent (ret a).
Proof. by intros w. Qed.

Lemma silent_raise {A} e : silent (@raise A e).
Proof. by intros w. Qed.

Lemma silent_lift {A} (r : Result A) : silent (lift r).
Proof. by intros w. Qed.

Lemma silent_bind {A B} (m : M A) (f : A → M B) :
  silent m → (∀ a, silent (f a)) → silent (bind m f).
Proof.
  intros Hm Hf w. unfold bind. specialize (Hm w).
  destruct (m w) as [[a|e] w']; simpl in *; subst; [apply Hf | done].
Qed.

Lemma silent_foldM {A S} (f : S → A → M S) xs :
  (∀ acc x, silent (f acc x)) → ∀ acc, silent (foldM f acc xs).
Proof.
  intros Hf. induction xs as [|x xs IH]; intros acc; simpl.
  - apply silent_ret.
  - apply silent_bind; auto.
Qed.

Lemma silent_read_balancer b : silent (read_balancer b).
Proof. intros w. unfold read_balancer. by destruct (heap w !! b) as [[]|]. Qed.

Lemma silent_get_id b : silent (get_id b).
Proof. apply silent_bind; [apply silent_read_balancer | intros; apply silent_ret]. Qed.

Lemma silent_get_members b : silent (get_members b).
Proof.
  apply silent_bind; [apply silent_read_balancer |].
  intros lb. destruct (lb_members lb); [apply silent_ret | apply silent_raise].
Qed.

Create HintDb silent.
#[local] Hint Resolve silent_ret silent_raise silent_lift silent_bind
  silent_read_balancer silent_get_id silent_get_members : silent.

(** ** Strings and keys *)

Lemma append_empty_r (s : string) : s +:+ "" = s.
Proof.
  induction s as [|c s IH]; [done|].
  change (String c (s +:+ "") = String c s). by f_equal.
Qed.

(** ** Indexed parameters *)

Section indexed_params.
Context {A : Type} (key : nat → string) (val : A → value).
Context `{!Inj (=) (=) key}.

Lemma indexed_nil base start : indexed key val base start [] = base.
Proof. reflexivity. Qed.

Lemma indexed_cons base start x xs :
  indexed key val base start (x :: xs) =
  indexed key val (<[key (start + 1) := val x]> base) (S start) xs.
Proof. reflexivity. Qed.

Lemma indexed_lookup_other base start (xs : list A) k :
  (∀ j, start ≤ j < start + length xs → k ≠ key (j + 1)) →
  indexed key val base start xs !! k = base !! k.
Proof.
  revert base start. induction xs as [|x xs IH]; intros base start Hk; [done|].
  rewrite indexed_cons, IH.
  - rewrite lookup_insert_ne; [done|].
    intros Heq. apply (Hk start); [simpl; lia | done].
  - intros j Hj. apply Hk. simpl. lia.
Qed.

Lemma indexed_lookup base start xs i x :
  xs !! i = Some x →
  indexed key val base start xs !! key (start + i + 1) = Some (val x).
Proof.
  revert base start i. induction xs as [|y xs IH]; intros base start i Hi; [done|].
  rewrite indexed_cons. destruct i as [|i]; simpl in Hi.
  - injection Hi as ->. rewrite indexed_lookup_other.
    + replace (start + 0 + 1) with (start + 1) by lia. apply lookup_insert_eq.
    + intros j Hj Heq. apply (inj key) in Heq. lia.
  - replace (start + S i + 1) with (S start + i + 1) by lia. by apply IH.
Qed.

Lemma indexed_lookup_ge base start (xs : list A) i :
  length xs ≤ i →
  indexed key val base start xs !! key (start + i + 1) = base !! key (start + i + 1).
Proof.
  intros Hi. apply indexed_lookup_other.
  intros j Hj Heq. apply (inj key) in Heq. lia.
Qed.

Lemma indexed_size base start (xs : list A) :
  (∀ j, start ≤ j → base !! key (j + 1) = None) →
  size (indexed key val base start xs) = size base + length xs.
Proof.
  revert base start. induction xs as [|x xs IH]; intros base start Hb.
  - unfold indexed. simpl. lia.
  - rewrite indexed_cons, IH.
    + rewrite map_size_insert_None by (apply Hb; lia). simpl. lia.
    + intros j Hj. rewrite lookup_insert_ne; [apply Hb; lia|].
      intros Heq. apply (inj key) in Heq. lia.
Qed.
End indexed_params.

(** ** The heap *)

Lemma lookup_new_balancer (h : list obj) (o1 o2 : obj) :
  (h ++ [o1; o2]) !! length h = Some o1.
Proof. by rewrite list_lookup_middle. Qed.

Lemma lookup_new_list (h : list obj) (o1 o2 : obj) :
  (h ++ [o1; o2]) !! S (length h) = Some o2.
Proof.
  rewrite lookup_app_r by lia.
  by replace (S (length h) - length h) with 1 by lia.
Qed.

(** Construction of a balancer object followed by [balancer._members = []]:
    two new objects at the end of the heap, nothing else touched. *)
Lemma new_balancer_run {A} (lb : LoadBalancer) (k : loc → M A) w :
  (balancer <~ alloc (OBalancer lb) ;;
   l <~ alloc (OList []) ;;
   set_members balancer l ;;;
   k balancer) w =
  k (length (heap w))
    {| heap := heap w ++ [OBalancer (with_members lb (S (length (heap w)))); OList []];
       sent := sent w |}.
Proof.
  unfold bind, alloc, set_members, read_balancer, bind, ret. simpl.
  rewrite <- (assoc_L (++)). simpl.
  rewrite lookup_new_balancer, length_app. simpl.
  replace (length (heap w) + 1) with (S (length (heap w))) by lia.
  f_equal. f_equal.
  replace (length (heap w)) with (length (heap w) + 0) at 1 by lia.
  by rewrite insert_app_r.
Qed.

(** ** create_balancer *)

Lemma format_zone n :
  format_d "AvailabilityZones.member.%d" n = "AvailabilityZones.member." +:+ pretty n.
Proof. cbn. by rewrite append_empty_r. Qed.

#[local] Instance format_zone_inj : Inj (=) (=) (format_d "AvailabilityZones.member.%d").
Proof.
  intros i j. rewrite !format_zone. intros H.
  by apply (inj (String.append _)), (inj pretty) in H.
Qed.

Lemma create_balancer_params_indexed self name port protocol zones :
  create_balancer_params self name port protocol zones =
  indexed (format_d "AvailabilityZones.member.%d") (λ z, VStr (region self +:+ z))
    (create_balancer_base name port protocol) 0 (default ["a"] zones).
Proof. by destruct zones. Qed.

Lemma create_balancer_base_lookup_zone name port protocol n :
  create_balancer_base name port protocol
    !! format_d "AvailabilityZones.member.%d" n = None.
Proof.
  rewrite format_zone. unfold create_balancer_base.
  repeat (rewrite lookup_insert_ne by discriminate).
  by rewrite lookup_singleton_ne by discriminate.
Qed.

Lemma create_balancer_run self name port protocol algorithm members zones w :
  create_balancer self name port protocol algorithm members zones w =
  let rq := {| req_path := ROOT;
               req_params := create_balancer_params self name port protocol zones |} in
  let w1 := {| heap := heap w; sent := sent w ++ [rq] |} in
  match respond (connection self) (sent w) rq with
  | Ok r =>
      (Ok (length (heap w)),
       {| heap := heap w ++
            [OBalancer {| lb_id := name; lb_name := name; lb_state := PENDING;
                          lb_ip := findtext (object r) "DNSName" NS; lb_port := port;
                          lb_driver := DriverRef;
                          lb_members := Some (S (length (heap w))) |};
             OList []];
          sent := sent w ++ [rq] |})
  | Raise e => (Raise e, w1)
  end.
Proof.
  unfold create_balancer. unfold bind at 1. unfold request at 1. simpl.
  destruct (respond _ _ _) as [r|e]; [|done].
  by rewrite new_balancer_run.
Qed.

(** C3: [create_balancer] accepts [algorithm] and [members] and transmits
    neither: two calls that agree on name, port, protocol and zones run
    identically whatever these two arguments are, and the one request they
    issue carries the parameter map [create_balancer_params], which is a
    function of the driver, the name, the port, the protocol and the zones
    only. *)
Theorem create_balancer_drops_algorithm_and_members
    self name port protocol zones algorithm1 members1 algorithm2 members2 w :
  create_balancer self name port protocol algorithm1 members1 zones w =
  create_balancer self name port protocol algorithm2 members2 zones w ∧
  sent (create_balancer self name port protocol algorithm1 members1 zones w).2 =
  sent w ++ [{| req_path := ROOT;
                req_params := create_balancer_params self name port protocol zones |}] ∧
  sent (create_balancer self name port protocol algorithm2 members2 zones w).2 =
  sent w ++ [{| req_path := ROOT;
                req_params := create_balancer_params self name port protocol zones |}].
Proof.
  split; [reflexivity|].
  rewrite !create_balancer_run. simpl.
  by destruct (respond _ _ _).
Qed.

Lemma create_balancer_params_zone self name port protocol zones i :
  create_balancer_params self name port protocol zones
    !! ("AvailabilityZones.member." +:+ pretty (i + 1)) =
  (λ z, VStr (region self +:+ z)) <$> default ["a"] zones !! i.
Proof.
  rewrite create_balancer_params_indexed, <- format_zone.
  change (i + 1) with (0 + i + 1).
  destruct (default ["a"] zones !! i) as [z|] eqn:Hz.
  - by apply (indexed_lookup _ (λ z, VStr (region self +:+ z)) _ 0 _ i z).
  - apply lookup_ge_None in Hz.
    rewrite (indexed_lookup_ge _ _ _ 0) by done.
    apply create_balancer_base_lookup_zone.
Qed.

Lemma create_balancer_params_base self name port protocol zones k :
  (∀ n : nat, k ≠ "AvailabilityZones.member." +:+ pretty n) →
  create_balancer_params self name port protocol zones !! k =
  create_balancer_base name port protocol !! k.
Proof.
  intros Hk. rewrite create_balancer_params_indexed.
  apply indexed_lookup_other. intros j _. rewrite format_zone. apply Hk.
Qed.

Lemma create_balancer_params_size self name port protocol zones :
  size (create_balancer_params self name port protocol zones) =
  6 + length (default ["a"] zones).
Proof.
  rewrite create_balancer_params_indexed, indexed_size.
  - by f_equal.
  - apply _.
  - intros j _. apply create_balancer_base_lookup_zone.
Qed.

(** C5: the parameter map of [create_balancer] holds one listener block with
    the port under both [InstancePort] and [LoadBalancerPort] and the
    upper-cased protocol under both [InstanceProtocol] and [Protocol], and one
    [AvailabilityZones.member.i] per zone, i from 1 in iteration order, the
    zone being the region followed by the given suffix (only ["a"] when no
    zones are given), and nothing else; the call issues this one request, and
    when the connection answers, returns a new balancer in state PENDING with
    id and name the given name, the given port, the text of DNSName as ip and
    a new empty [_members] list. *)
Theorem create_balancer_spec self name port protocol algorithm members zones w :
  let zs := default ["a"] zones in
  let P := create_balancer_params self name port protocol zones in
  let rq := {| req_path := ROOT; req_params := P |} in
  let out := create_balancer self name port protocol algorithm members zones w in
  (P !! "Action" = Some (VStr "CreateLoadBalancer") ∧
   P !! "LoadBalancerName" = Some name ∧
   P !! "Listeners.member.1.InstancePort" = Some (VStr (py_str port)) ∧
   P !! "Listeners.member.1.LoadBalancerPort" = Some (VStr (py_str port)) ∧
   P !! "Listeners.member.1.InstanceProtocol" = Some (VStr (upper protocol)) ∧
   P !! "Listeners.member.1.Protocol" = Some (VStr (upper protocol))) ∧
  ((∀ i, P !! ("AvailabilityZones.member." +:+ pretty (i + 1)) =
         (λ z, VStr (region self +:+ z)) <$> zs !! i) ∧
   size P = 6 + length zs ∧
   (zones = None → zs = ["a"])) ∧
  sent out.2 = sent w ++ [rq] ∧
  (∀ r, respond (connection self) (sent w) rq = Ok r →
     ∃ b l, out.1 = Ok b ∧
       heap w !! b = None ∧ heap w !! l = None ∧
       heap out.2 !! b = Some (OBalancer
         {| lb_id := name; lb_name := name; lb_state := PENDING;
            lb_ip := findtext (object r) "DNSName" NS; lb_port := port;
            lb_driver := DriverRef; lb_members := Some l |}) ∧
       heap out.2 !! l = Some (OList [])).
Proof.
  intros zs P rq out. repeat split.
  1-6: unfold P; rewrite create_balancer_params_base by (intros n; discriminate);
       unfold create_balancer_base; by simplify_map_eq.
  - intros i. apply create_balancer_params_zone.
  - apply create_balancer_params_size.
  - intros Hz. unfold zs. by rewrite Hz.
  - unfold out. rewrite create_balancer_run. simpl. by destruct (respond _ _ _).
  - intros r Hr. unfold out. rewrite create_balancer_run. simpl.
    fold P. fold rq. rewrite Hr. simpl.
    exists (length (heap w)), (S (length (heap w))).
    split; [done|]. split; [by apply lookup_ge_None|].
    split; [apply lookup_ge_None; lia|].
    split; [apply lookup_new_balancer | apply lookup_new_list].
Qed.

Lemma create_balancer_witness :
  ∃ b l,
    (create_balancer (sample_driver (sample_describe []) 200) (VStr "lb1") (VInt 80)
       "http" VNone [] None empty_world).1 = Ok b ∧
    heap empty_world !! b = None ∧ heap empty_world !! l = None ∧
    heap (create_balancer (sample_driver (sample_describe []) 200) (VStr "lb1")
            (VInt 80) "http" VNone [] None empty_world).2 !! b =
      Some (OBalancer
        {| lb_id := VStr "lb1"; lb_name := VStr "lb1"; lb_state := PENDING;
           lb_ip := findtext (sample_describe []) "DNSName" NS; lb_port := VInt 80;
           lb_driver := DriverRef; lb_members := Some l |}) ∧
    heap (create_balancer (sample_driver (sample_describe []) 200) (VStr "lb1")
            (VInt 80) "http" VNone [] None empty_world).2 !! l = Some (OList []).
Proof.
  destruct (create_balancer_spec (sample_driver (sample_describe []) 200)
              (VStr "lb1") (VInt 80) "http" VNone [] None empty_world)
    as (_ & _ & _ & H).
  apply (H {| object := sample_describe []; status := 200 |}).
  reflexivity.
Defined.

(** ** Parsing *)

(** [balancer._members.append(m)] on a balancer and its list that are the
    last two objects of the heap. *)
Lemma append_member_step (lb : LoadBalancer) (h : list obj) (ms : list Member)
    (m : Member) (snt : list Request) :
  lb_members lb = Some (S (length h)) →
  (l <~ get_members (length h) ;; list_append l m)
    {| heap := h ++ [OBalancer lb; OList ms]; sent := snt |} =
  (Ok tt, {| heap := h ++ [OBalancer lb; OList (ms ++ [m])]; sent := snt |}).
Proof.
  intros Hlb.
  unfold bind, get_members, read_balancer, list_append, bind, ret. simpl.
  rewrite lookup_new_balancer, Hlb. simpl.
  rewrite lookup_new_list.
  replace (S (length h)) with (length h + 1) by lia.
  by rewrite insert_app_r.
Qed.

Lemma append_members_run (b : loc) (lb : LoadBalancer) (h : list obj)
    (ms : list Member) (xs : list Element) (snt : list Request) :
  b = length h →
  lb_members lb = Some (S b) →
  (forM_ xs (λ m, l <~ get_members b ;; list_append l (parsed_member b m)) ;;;
   ret b) {| heap := h ++ [OBalancer lb; OList ms]; sent := snt |} =
  (Ok b, {| heap := h ++ [OBalancer lb; OList (ms ++ (parsed_member b <$> xs))];
            sent := snt |}).
Proof.
  intros -> Hlb. revert ms. induction xs as [|x xs IH]; intros ms.
  - simpl. by rewrite app_nil_r.
  - rewrite fmap_cons. simpl forM_. rewrite bind_assoc.
    erewrite bind_ok by (by apply append_member_step).
    rewrite IH. by rewrite <- (assoc_L (++)).
Qed.

Lemma _to_balancer_run el w :
  _to_balancer el w =
  (Ok (length (heap w)),
   {| heap := heap w ++
        [OBalancer
           {| lb_id := findtext el "LoadBalancerName" NS;
              lb_name := findtext el "LoadBalancerName" NS;
              lb_state := UNKNOWN;
              lb_ip := findtext el "DNSName" NS;
              lb_port := findtext el "LoadBalancerPort" NS;
              lb_driver := DriverRef;
              lb_members := Some (S (length (heap w))) |};
         OList (parsed_member (length (heap w))
                  <$> findall el "Instances/member/InstanceId" NS)];
      sent := sent w |}).
Proof.
  unfold _to_balancer. rewrite new_balancer_run.
  by rewrite (append_members_run _ _ _ []).
Qed.

Lemma parsed_from_mono h h' b el : parsed_from h b el → parsed_from (h ++ h') b el.
Proof.
  intros (l & Hb & Hl). exists l. split; by apply lookup_app_l_Some.
Qed.

Lemma _to_balancer_parsed el w :
  parsed_from (heap (_to_balancer el w).2) (length (heap w)) el.
Proof.
  rewrite _to_balancer_run. simpl. exists (S (length (heap w))).
  split; [apply lookup_new_balancer | apply lookup_new_list].
Qed.

(** The list comprehension of [_to_balancers]: it never fails, issues no
    request, only adds objects to the heap, and returns one balancer per
    fragment, in order. *)
Lemma mapM_to_balancer_run (els : list Element) w :
  ∃ bs h',
    mapM _to_balancer els w = (Ok bs, {| heap := heap w ++ h'; sent := sent w |}) ∧
    Forall2 (parsed_from (heap w ++ h')) bs els.
Proof.
  revert w. induction els as [|el els IH]; intros w.
  - exists [], []. split; [|constructor].
    simpl. unfold ret. rewrite app_nil_r. by destruct w.
  - pose proof (_to_balancer_parsed el w) as Hp.
    pose proof (_to_balancer_run el w) as Hrun1.
    set (objs := [OBalancer _; OList _]) in Hrun1.
    destruct (IH {| heap := heap w ++ objs; sent := sent w |})
      as (bs & h' & Hrun & Hall).
    simpl in Hrun, Hall. rewrite Hrun1 in Hp. simpl in Hp.
    exists (length (heap w) :: bs), (objs ++ h'). rewrite (assoc_L (++)). split.
    + simpl. erewrite bind_ok by exact Hrun1. by erewrite bind_ok by exact Hrun.
    + constructor; [by apply parsed_from_mono | done].
Qed.

Lemma findtext_str_or_none el xpath ns :
  findtext el xpath ns = VNone ∨ ∃ s, findtext el xpath ns = VStr s.
Proof. unfold findtext. destruct (findall el xpath ns); eauto. Qed.

Lemma parsed_unknown_with_text_port h b el :
  parsed_from h b el → unknown_with_text_port h b el.
Proof.
  intros (l & Hb & _). eexists. split; [exact Hb|]. simpl.
  repeat split. apply findtext_str_or_none.
Qed.

Lemma list_balancers_run self w r :
  respond (connection self) (sent w) list_balancers_request = Ok r →
  ∃ bs h',
    list_balancers self w =
      (Ok bs, {| heap := heap w ++ h'; sent := sent w ++ [list_balancers_request] |}) ∧
    Forall2 (parsed_from (heap w ++ h')) bs (balancer_fragments (object r)).
Proof.
  intros Hr. unfold list_balancers, _to_balancers.
  destruct (mapM_to_balancer_run (balancer_fragments (object r))
    {| heap := heap w; sent := sent w ++ [list_balancers_request] |})
    as (bs & h' & Hrun & Hall).
  exists bs, h'. split; [|done].
  unfold bind, request. fold list_balancers_request. by rewrite Hr.
Qed.

Lemma get_balancer_run self balancer_id w r :
  respond (connection self) (sent w) (get_balancer_request balancer_id) = Ok r →
  ∃ bs h',
    get_balancer self balancer_id w =
      (subscript bs 0,
       {| heap := heap w ++ h'; sent := sent w ++ [get_balancer_request balancer_id] |}) ∧
    Forall2 (parsed_from (heap w ++ h')) bs (balancer_fragments (object r)).
Proof.
  intros Hr. unfold get_balancer, _to_balancers.
  destruct (mapM_to_balancer_run (balancer_fragments (object r))
    {| heap := heap w; sent := sent w ++ [get_balancer_request balancer_id] |})
    as (bs & h' & Hrun & Hall).
  exists bs, h'. split; [|done].
  unfold bind at 1. unfold request. fold (get_balancer_request balancer_id).
  rewrite Hr. unfold bind at 1. unfold balancer_fragments in Hrun. rewrite Hrun.
  unfold lift. by destruct (subscript bs 0).
Qed.

Lemma get_balancer_inv self balancer_id w b w' :
  get_balancer self balancer_id w = (Ok b, w') →
  ∃ r h' el,
    respond (connection self) (sent w) (get_balancer_request balancer_id) = Ok r ∧
    w' = {| heap := heap w ++ h';
            sent := sent w ++ [get_balancer_request balancer_id] |} ∧
    balancer_fragments (object r) !! 0 = Some el ∧
    parsed_from (heap w') b el.
Proof.
  intros Hrun.
  destruct (respond (connection self) (sent w) (get_balancer_request balancer_id))
    as [r|e] eqn:Hr.
  - destruct (get_balancer_run _ _ _ _ Hr) as (bs & h' & Hrun' & Hall).
    rewrite Hrun' in Hrun. injection Hrun as Hsub <-.
    unfold subscript in Hsub. destruct bs as [|b0 bs]; [done|].
    injection Hsub as ->. inversion Hall as [|? el ? els Hp Hrest Heq1 Heq2].
    exists r, h', el. by rewrite <- Heq2.
  - unfold get_balancer, bind, request in Hrun.
    fold (get_balancer_request balancer_id) in Hrun. by rewrite Hr in Hrun.
Qed.

(** C1 (amended): when the describe response holds no balancer fragment,
    [get_balancer] fails, after its one request, with the IndexError of the
    unguarded [[0]] on the empty list of parsed balancers: a catchable
    exception, but the fault of a subscript out of range and no checked
    not-found error. *)
Theorem get_balancer_no_match self balancer_id w r :
  respond (connection self) (sent w) (get_balancer_request balancer_id) = Ok r →
  balancer_fragments (object r) = [] →
  get_balancer self balancer_id w =
    (Raise IndexError,
     {| heap := heap w; sent := sent w ++ [get_balancer_request balancer_id] |}) ∧
  fails_with_class (get_balancer self balancer_id w) IndexingFault.
Proof.
  intros Hr Hnone.
  assert (get_balancer self balancer_id w =
    (Raise IndexError,
     {| heap := heap w; sent := sent w ++ [get_balancer_request balancer_id] |}))
    as Hrun.
  { unfold get_balancer, bind, request. fold (get_balancer_request balancer_id).
    rewrite Hr. unfold _to_balancers. fold (balancer_fragments (object r)).
    by rewrite Hnone. }
  split; [done|]. exists IndexError. by rewrite Hrun.
Qed.

Lemma get_balancer_no_match_witness :
  get_balancer (sample_driver (sample_describe []) 200) (VStr "lb1") empty_world =
    (Raise IndexError,
     {| heap := []; sent := [get_balancer_request (VStr "lb1")] |}) ∧
  fails_with_class
    (get_balancer (sample_driver (sample_describe []) 200) (VStr "lb1") empty_world)
    IndexingFault.
Proof.
  apply (get_balancer_no_match (sample_driver (sample_describe []) 200) (VStr "lb1")
           empty_world {| object := sample_describe []; status := 200 |});
    reflexivity.
Defined.

(** C1 as stated fails: on a describe response without balancer fragments
    the failure of [get_balancer] is not of the not-found class. *)
Lemma get_balancer_not_found_counterexample :
  respond (connection (sample_driver (sample_describe []) 200)) (sent empty_world)
    (get_balancer_request (VStr "lb1")) =
    Ok {| object := sample_describe []; status := 200 |} ∧
  balancer_fragments (sample_describe []) = [] ∧
  ¬ fails_with_class
      (get_balancer (sample_driver (sample_describe []) 200) (VStr "lb1") empty_world)
      NotFound.
Proof.
  split; [reflexivity|]. split; [reflexivity|].
  intros (e & He & Hc).
  assert ((get_balancer (sample_driver (sample_describe []) 200) (VStr "lb1")
             empty_world).1 = Raise IndexError) as Hrun by (vm_compute; reflexivity).
  rewrite Hrun in He. injection He as <-. discriminate Hc.
Qed.

(** C10: every balancer parsed from a describe response, through
    [list_balancers] or [get_balancer], has state UNKNOWN (so neither PENDING
    nor ACTIVE) and as port the text found for the [LoadBalancerPort] node,
    a string or [None], never an integer; so the balancer that [get_balancer]
    returns after [create_balancer] with an integer port does not carry the
    port the one returned by [create_balancer] carries. *)
Theorem parsed_balancer_state_and_port self w :
  (∀ r, respond (connection self) (sent w) list_balancers_request = Ok r →
     ∃ bs, (list_balancers self w).1 = Ok bs ∧
       Forall2 (unknown_with_text_port (heap (list_balancers self w).2)) bs
         (balancer_fragments (object r))) ∧
  (∀ balancer_id b w',
     get_balancer self balancer_id w = (Ok b, w') →
     ∃ r el,
       respond (connection self) (sent w) (get_balancer_request balancer_id) = Ok r ∧
       balancer_fragments (object r) !! 0 = Some el ∧
       unknown_with_text_port (heap w') b el) ∧
  (∀ name (port : Z) protocol algorithm members zones b1 w1 b2 w2,
     create_balancer self name (VInt port) protocol algorithm members zones w
       = (Ok b1, w1) →
     get_balancer self name w1 = (Ok b2, w2) →
     ∃ lb1 lb2,
       heap w2 !! b1 = Some (OBalancer lb1) ∧
       heap w2 !! b2 = Some (OBalancer lb2) ∧
       lb_state lb1 = PENDING ∧ lb_port lb1 = VInt port ∧
       lb_state lb2 = UNKNOWN ∧ lb_port lb2 ≠ VInt port ∧
       (lb_port lb2 = VNone ∨ ∃ s, lb_port lb2 = VStr s)).
Proof.
  split; [|split].
  - intros r Hr. destruct (list_balancers_run _ _ _ Hr) as (bs & h' & Hrun & Hall).
    rewrite Hrun. simpl. exists bs. split; [done|].
    eapply Forall2_impl; [exact Hall|]. intros b el. apply parsed_unknown_with_text_port.
  - intros balancer_id b w' Hrun.
    destruct (get_balancer_inv _ _ _ _ _ Hrun) as (r & h' & el & Hr & _ & Hel & Hp).
    exists r, el. auto using parsed_unknown_with_text_port.
  - intros name port protocol algorithm members zones b1 w1 b2 w2 Hc Hg.
    rewrite create_balancer_run in Hc. simpl in Hc.
    destruct (respond _ _ _) as [r1|e]; [|done]. injection Hc as <- <-.
    destruct (get_balancer_inv _ _ _ _ _ Hg) as (r & h' & el & _ & -> & _ & Hp).
    apply parsed_unknown_with_text_port in Hp as (lb2 & Hb2 & Hst & Hport & Hsn).
    eexists _, lb2. simpl in *.
    split; [apply lookup_app_l_Some, lookup_new_balancer|].
    repeat split; try done.
    destruct Hsn as [-> | [s ->]]; discriminate.
Qed.

Lemma parsed_balancer_state_and_port_witness :
  ∃ lb1 lb2 w2,
    get_balancer (sample_driver (sample_describe [sample_balancer "lb1" "80" ["i-1"]]) 200)
      (VStr "lb1")
      (create_balancer
         (sample_driver (sample_describe [sample_balancer "lb1" "80" ["i-1"]]) 200)
         (VStr "lb1") (VInt 80) "http" VNone [] None empty_world).2 = (Ok 2, w2) ∧
    heap w2 !! 0 = Some (OBalancer lb1) ∧
    heap w2 !! 2 = Some (OBalancer lb2) ∧
    lb_state lb1 = PENDING ∧ lb_port lb1 = VInt 80 ∧
    lb_state lb2 = UNKNOWN ∧ lb_port lb2 ≠ VInt 80 ∧
    (lb_port lb2 = VNone ∨ ∃ s, lb_port lb2 = VStr s).
Proof.
  pose (d := sample_driver (sample_describe [sample_balancer "lb1" "80" ["i-1"]]) 200).
  destruct (parsed_balancer_state_and_port d empty_world) as (_ & _ & H).
  destruct (H (VStr "lb1") 80%Z "http" VNone [] None 0
              (create_balancer d (VStr "lb1") (VInt 80) "http" VNone [] None
                 empty_world).2
              2
              (get_balancer d (VStr "lb1")
                 (create_balancer d (VStr "lb1") (VInt 80) "http" VNone [] None
                    empty_world).2).2)
    as (lb1 & lb2 & H').
  - vm_compute. reflexivity.
  - vm_compute. reflexivity.
  - exists lb1, lb2. eexists. split; [|exact H']. vm_compute. reflexivity.
Defined.

Example parsed_port_is_text :
  ∃ w',
    get_balancer (sample_driver (sample_describe [sample_balancer "lb1" "80" ["i-1"]]) 200)
      (VStr "lb1") empty_world = (Ok 0, w') ∧
    heap w' !! 0 = Some (OBalancer
      {| lb_id := VStr "lb1"; lb_name := VStr "lb1"; lb_state := UNKNOWN;
         lb_ip := VStr "lb1.elb.amazonaws.com"; lb_port := VStr "80";
         lb_driver := DriverRef; lb_members := Some 1 |}) ∧
    heap w' !! 1 = Some (OList [{| m_id := VStr "i-1"; m_ip := VNone; m_port := VNone;
                                   m_balancer := ObjRef 0 |}]).
Proof. eexists. split; [vm_compute; reflexivity|]. split; reflexivity. Qed.

(** ** Members *)

Lemma bind_ok_inv {A B} (m : M A) (f : A → M B) w v w' :
  bind m f w = (Ok v, w') → ∃ a w1, m w = (Ok a, w1) ∧ f a w1 = (Ok v, w').
Proof.
  unfold bind. destruct (m w) as [[a|e] w1]; [eauto | discriminate].
Qed.

Lemma get_id_run h snt b lb :
  h !! b = Some (OBalancer lb) →
  get_id b {| heap := h; sent := snt |} = (Ok (lb_id lb), {| heap := h; sent := snt |}).
Proof. intros Hb. unfold get_id, bind, read_balancer. simpl. by rewrite Hb. Qed.

Lemma get_members_run h snt b lb l :
  h !! b = Some (OBalancer lb) → lb_members lb = Some l →
  get_members b {| heap := h; sent := snt |} = (Ok l, {| heap := h; sent := snt |}).
Proof.
  intros Hb Hl. unfold get_members, bind, read_balancer. simpl. by rewrite Hb, Hl.
Qed.

Lemma balancer_attach_compute_node_run self b node w lb l ms :
  has_members (heap w) b lb l ms →
  balancer_attach_compute_node self b node w =
  match respond (connection self) (sent w) (attach_request (lb_id lb) node) with
  | Ok _ =>
      (Ok tt,
       {| heap := <[l := OList (ms ++ [{| m_id := node_id node; m_ip := VNone;
                                          m_port := VNone; m_balancer := DriverRef |}])]>
                    (heap w);
          sent := sent w ++ [attach_request (lb_id lb) node] |})
  | Raise e =>
      (Raise e, {| heap := heap w; sent := sent w ++ [attach_request (lb_id lb) node] |})
  end.
Proof.
  intros (Hb & Hl & Hms). unfold balancer_attach_compute_node. destruct w as [h snt].
  erewrite bind_ok by (by apply get_id_run).
  unfold bind at 1. unfold request. fold (attach_request (lb_id lb) node). simpl.
  destruct (respond _ _ _) as [r|e]; [|done].
  erewrite bind_ok by (by eapply get_members_run).
  unfold list_append. simpl in *. by rewrite Hms.
Qed.

Lemma balancer_detach_member_run self b member w lb l ms :
  has_members (heap w) b lb l ms →
  balancer_detach_member self b member w =
  match respond (connection self) (sent w) (detach_request (lb_id lb) member) with
  | Ok _ =>
      (Ok true,
       {| heap := <[b := OBalancer (with_members lb (length (heap w)))]>
                    (heap w ++ [OList (filter (λ m, m_id m ≠ m_id member) ms)]);
          sent := sent w ++ [detach_request (lb_id lb) member] |})
  | Raise e =>
      (Raise e, {| heap := heap w; sent := sent w ++ [detach_request (lb_id lb) member] |})
  end.
Proof.
  intros (Hb & Hl & Hms). unfold balancer_detach_member. destruct w as [h snt].
  erewrite bind_ok by (by apply get_id_run).
  unfold bind at 1. unfold request. fold (detach_request (lb_id lb) member). simpl.
  destruct (respond _ _ _) as [r|e]; [|done].
  erewrite bind_ok by (by eapply get_members_run).
  unfold bind, list_items, alloc, set_members, read_balancer, bind, ret. simpl in *.
  rewrite Hms. simpl. by rewrite (lookup_app_l_Some _ _ _ _ Hb).
Qed.

Lemma parsed_members_point_to_balancer h b el :
  parsed_from h b el →
  ∃ lb l ms, has_members h b lb l ms ∧ Forall (λ m, m_balancer m = ObjRef b) ms.
Proof.
  intros (l & Hb & Hl). eexists _, l, _. split; [by split|].
  apply Forall_fmap, Forall_true. done.
Qed.

(** C4: the [Member] that [balancer_attach_compute_node] appends does not
    point back to the balancer it is appended to: its [balancer] field is the
    driver ([balancer=self]), where [_to_balancer] passes the balancer. *)
Theorem attach_member_points_to_driver self b node w lb l ms r :
  has_members (heap w) b lb l ms →
  respond (connection self) (sent w) (attach_request (lb_id lb) node) = Ok r →
  ∃ m w',
    balancer_attach_compute_node self b node w = (Ok tt, w') ∧
    has_members (heap w') b lb l (ms ++ [m]) ∧
    m_id m = node_id node ∧
    m_balancer m = DriverRef ∧
    m_balancer m ≠ ObjRef b.
Proof.
  intros Hm Hr. rewrite (balancer_attach_compute_node_run _ _ _ _ _ _ _ Hm), Hr.
  destruct Hm as (Hb & Hl & Hms).
  assert (b ≠ l) as Hne by (intros ->; congruence).
  exists {| m_id := node_id node; m_ip := VNone; m_port := VNone;
            m_balancer := DriverRef |}.
  eexists. split; [reflexivity|]. split; [|done]. simpl. split; [|split; [done|]].
  - by rewrite list_lookup_insert_ne.
  - apply list_lookup_insert_eq. by eapply lookup_lt_Some.
Qed.

Lemma attach_member_points_to_driver_witness :
  ∃ m w',
    balancer_attach_compute_node (sample_driver (sample_describe []) 200) 0
      {| node_id := VStr "i-2" |} sample_world = (Ok tt, w') ∧
    has_members (heap w') 0
      {| lb_id := VStr "lb1"; lb_name := VStr "lb1"; lb_state := UNKNOWN;
         lb_ip := VStr "lb1.elb.amazonaws.com"; lb_port := VStr "80";
         lb_driver := DriverRef; lb_members := Some 1 |} 1
      ([{| m_id := VStr "i-1"; m_ip := VNone; m_port := VNone;
           m_balancer := ObjRef 0 |}] ++ [m]) ∧
    m_id m = VStr "i-2" ∧
    m_balancer m = DriverRef ∧
    m_balancer m ≠ ObjRef 0.
Proof.
  apply (attach_member_points_to_driver (sample_driver (sample_describe []) 200) 0
           {| node_id := VStr "i-2" |} sample_world _ 1 _
           {| object := sample_describe []; status := 200 |}).
  - repeat split.
  - reflexivity.
Defined.

Lemma filter_all {A} (P : A → Prop) `{!∀ x, Decision (P x)} (l : list A) :
  Forall P l → filter P l = l.
Proof.
  induction 1 as [|x l Hx _ IH]; [done|]. by rewrite filter_cons_True, IH.
Qed.

Lemma filter_none {A} (P : A → Prop) `{!∀ x, Decision (P x)} (l : list A) :
  Forall (λ x, ¬ P x) l → filter P l = [].
Proof.
  induction 1 as [|x l Hx _ IH]; [done|]. by rewrite filter_cons_False.
Qed.

Lemma filter_twice {A} (P : A → Prop) `{!∀ x, Decision (P x)} (l : list A) :
  filter P (filter P l) = filter P l.
Proof.
  apply filter_all, Forall_forall. intros x Hx.
  by apply list_elem_of_filter in Hx as [? _].
Qed.

Lemma has_members_update h b lb l ms ms' :
  has_members h b lb l ms → has_members (<[l := OList ms']> h) b lb l ms'.
Proof.
  intros (Hb & Hl & Hms). assert (b ≠ l) as Hne by (intros ->; congruence).
  split; [by rewrite list_lookup_insert_ne|]. split; [done|].
  apply list_lookup_insert_eq. by eapply lookup_lt_Some.
Qed.

Lemma has_members_rebind h b lb l ms ms' :
  has_members h b lb l ms →
  has_members (<[b := OBalancer (with_members lb (length h))]> (h ++ [OList ms']))
    b (with_members lb (length h)) (length h) ms'.
Proof.
  intros (Hb & _ & _). pose proof (lookup_lt_Some _ _ _ Hb) as Hlt.
  split; [|split; [done|]].
  - apply list_lookup_insert_eq. rewrite length_app. lia.
  - rewrite list_lookup_insert_ne by lia. by rewrite list_lookup_middle.
Qed.

(** C6: [balancer_list_members] returns the very list object the balancer
    caches in [_members] and leaves the world untouched, so it issues no
    request; hence after [balancer_attach_compute_node] has completed on a
    balancer whose cached list held no member with the node's id, the list it
    returns holds exactly one member with that id. *)
Theorem balancer_list_members_cached self b node w lb l ms :
  has_members (heap w) b lb l ms →
  balancer_list_members self b w = (Ok l, w) ∧
  (∀ w',
     Forall (λ m, m_id m ≠ node_id node) ms →
     balancer_attach_compute_node self b node w = (Ok tt, w') →
     ∃ ms',
       balancer_list_members self b w' = (Ok l, w') ∧
       has_members (heap w') b lb l ms' ∧
       length (filter (λ m, m_id m = node_id node) ms') = 1).
Proof.
  intros Hm. split.
  - destruct Hm as (Hb & Hl & _). destruct w. by eapply get_members_run.
  - intros w' Hfresh Hrun.
    rewrite (balancer_attach_compute_node_run _ _ _ _ _ _ _ Hm) in Hrun.
    destruct (respond _ _ _) as [r|e]; [|done]. injection Hrun as <-.
    set (m := {| m_id := node_id node; m_ip := VNone; m_port := VNone;
                 m_balancer := DriverRef |}).
    pose proof (has_members_update _ _ _ _ _ (ms ++ [m]) Hm) as Hm'.
    exists (ms ++ [m]). split; [|split; [done|]].
    + destruct Hm' as (Hb & Hl & _). by eapply get_members_run.
    + rewrite filter_app, filter_none.
      * by rewrite filter_cons_True.
      * eapply Forall_impl; [exact Hfresh|]. naive_solver.
Qed.

Lemma balancer_list_members_cached_witness :
  balancer_list_members (sample_driver (sample_describe []) 200) 0 sample_world =
    (Ok 1, sample_world) ∧
  ∃ ms',
    balancer_list_members (sample_driver (sample_describe []) 200) 0
      (balancer_attach_compute_node (sample_driver (sample_describe []) 200) 0
         {| node_id := VStr "i-2" |} sample_world).2 =
      (Ok 1, (balancer_attach_compute_node (sample_driver (sample_describe []) 200) 0
                {| node_id := VStr "i-2" |} sample_world).2) ∧
    has_members
      (heap (balancer_attach_compute_node (sample_driver (sample_describe []) 200) 0
               {| node_id := VStr "i-2" |} sample_world).2) 0
      {| lb_id := VStr "lb1"; lb_name := VStr "lb1"; lb_state := UNKNOWN;
         lb_ip := VStr "lb1.elb.amazonaws.com"; lb_port := VStr "80";
         lb_driver := DriverRef; lb_members := Some 1 |} 1 ms' ∧
    length (filter (λ m, m_id m = VStr "i-2") ms') = 1.
Proof.
  destruct (balancer_list_members_cached (sample_driver (sample_describe []) 200) 0
              {| node_id := VStr "i-2" |} sample_world _ 1 _
              ltac:(repeat split)) as [H1 H2].
  split; [exact H1|]. apply H2.
  - repeat constructor; discriminate.
  - vm_compute. reflexivity.
Defined.

(** C7: [balancer_detach_member], once its request has been answered,
    rebinds [_members] to a list holding the former members whose id differs
    from the given member's, in their former order: exactly the members with
    that id are gone; when no member has that id the content is unchanged, and
    detaching twice gives the content of detaching once; and whenever the call
    completes it returns true. *)
Theorem balancer_detach_member_spec self b member w :
  (∀ v w', balancer_detach_member self b member w = (Ok v, w') → v = true) ∧
  (∀ lb l ms,
     has_members (heap w) b lb l ms →
     let kept := filter (λ m, m_id m ≠ m_id member) ms in
     (∀ r, respond (connection self) (sent w) (detach_request (lb_id lb) member) = Ok r →
        ∃ w' l',
          balancer_detach_member self b member w = (Ok true, w') ∧
          has_members (heap w') b (with_members lb l') l' kept) ∧
     (∀ m, m ∈ kept ↔ m ∈ ms ∧ m_id m ≠ m_id member) ∧
     sublist kept ms ∧
     (Forall (λ m, m_id m ≠ m_id member) ms → kept = ms) ∧
     filter (λ m, m_id m ≠ m_id member) kept = kept).
Proof.
  split.
  - intros v w' Hrun. unfold balancer_detach_member in Hrun.
    repeat (apply bind_ok_inv in Hrun as (? & ? & _ & Hrun)).
    by injection Hrun as <-.
  - intros lb l ms Hm kept. split; [|split; [|split; [|split]]].
    + intros r Hr. rewrite (balancer_detach_member_run _ _ _ _ _ _ _ Hm), Hr.
      eexists _, _. split; [reflexivity|]. simpl. by eapply has_members_rebind.
    + intros m. unfold kept. rewrite list_elem_of_filter. tauto.
    + apply sublist_filter.
    + apply filter_all.
    + apply filter_twice.
Qed.

Lemma balancer_detach_member_spec_witness :
  ∃ w' l',
    balancer_detach_member (sample_driver (sample_describe []) 200) 0
      {| m_id := VStr "i-1"; m_ip := VNone; m_port := VNone; m_balancer := ObjRef 0 |}
      sample_world = (Ok true, w') ∧
    has_members (heap w') 0
      (with_members
         {| lb_id := VStr "lb1"; lb_name := VStr "lb1"; lb_state := UNKNOWN;
            lb_ip := VStr "lb1.elb.amazonaws.com"; lb_port := VStr "80";
            lb_driver := DriverRef; lb_members := Some 1 |} l') l'
      (filter (λ m, m_id m ≠ VStr "i-1")
         [{| m_id := VStr "i-1"; m_ip := VNone; m_port := VNone;
             m_balancer := ObjRef 0 |}]).
Proof.
  destruct (balancer_detach_member_spec (sample_driver (sample_describe []) 200) 0
              {| m_id := VStr "i-1"; m_ip := VNone; m_port := VNone;
                 m_balancer := ObjRef 0 |} sample_world) as [_ H].
  destruct (H _ 1 _ ltac:(repeat split)) as [H' _].
  apply (H' {| object := sample_describe []; status := 200 |}). reflexivity.
Defined.

(** ** Operations that return the status *)

Lemma silent_run {A} (m : M A) w : silent m → m w = ((m w).1, w).
Proof. intros Hm. specialize (Hm w). destruct (m w). simpl in *. by subst. Qed.

Lemma status_op_run self build w P :
  build w = (Ok P, w) →
  status_op self build w =
  match respond (connection self) (sent w) {| req_path := ROOT; req_params := P |} with
  | Ok r => (Ok (bool_decide (status r = OK)),
             {| heap := heap w;
                sent := sent w ++ [{| req_path := ROOT; req_params := P |}] |})
  | Raise e => (Raise e,
                {| heap := heap w;
                   sent := sent w ++ [{| req_path := ROOT; req_params := P |}] |})
  end.
Proof.
  intros Hb. unfold status_op. erewrite bind_ok by exact Hb.
  unfold bind, request, ret. by destruct (respond _ _ _).
Qed.

Lemma status_op_returns_status self build :
  silent build → returns_status self (status_op self build).
Proof.
  intros Hs w rq r Hsent Hr.
  pose proof (silent_run build w Hs) as Hb.
  destruct (build w).1 as [P|e] eqn:Hres.
  - rewrite (status_op_run _ _ _ _ Hb) in *.
    assert (rq = {| req_path := ROOT; req_params := P |}) as ->.
    { destruct (respond _ _ {| req_path := ROOT; req_params := P |}); simpl in Hsent;
        apply (inj (app _)) in Hsent; by injection Hsent. }
    rewrite Hr. simpl. split; [done|]. intros Hne. by rewrite bool_decide_eq_false_2.
  - unfold status_op in Hsent. erewrite bind_raise in Hsent by exact Hb.
    simpl in Hsent. rewrite <- (app_nil_r (sent w)) in Hsent at 1.
    by apply (inj (app _)) in Hsent.
Qed.

Lemma returns_status_ext self (op op' : M bool) :
  (∀ w, op w = op' w) → returns_status self op' → returns_status self op.
Proof. intros Heq H w rq r. rewrite !Heq. apply H. Qed.

Lemma silent__create_list_params params items label :
  silent (_create_list_params params items label).
Proof.
  apply silent_bind; [destruct items|]; eauto with silent.
Qed.

Lemma silent_listener_params params entry : silent (listener_params params entry).
Proof.
  destruct entry as [index listener]. unfold listener_params.
  repeat (apply silent_bind; [apply silent_lift | intros ?]).
  destruct (_ || _); eauto with silent.
Qed.

#[local] Hint Resolve silent__create_list_params silent_listener_params
  silent_foldM : silent.

(** C9: each of the five policy and listener operations, whenever its
    request has been answered with a response, returns whether the status of
    the response is OK: false on any other status, not an exception. *)
Theorem status_operations_return_status self balancer
    policy_name policy_type policy_attributes port policies listeners :
  returns_status self
    (ex_create_balancer_policy self balancer policy_name policy_type policy_attributes) ∧
  returns_status self (ex_delete_balancer_policy self balancer policy_name) ∧
  returns_status self (ex_set_balancer_policies_listener self balancer port policies) ∧
  returns_status self
    (ex_set_balancer_policies_backend_server self balancer port policies) ∧
  returns_status self (ex_create_balancer_listeners self balancer listeners).
Proof.
  split; [|split; [|split; [|split]]].
  - eapply (returns_status_ext _ _ (status_op self (id <~ get_id balancer ;; ret _))).
    + intros w. unfold status_op. rewrite bind_assoc. reflexivity.
    + apply status_op_returns_status. eauto with silent.
  - eapply (returns_status_ext _ _ (status_op self (id <~ get_id balancer ;; ret _))).
    + intros w. unfold status_op. rewrite bind_assoc. reflexivity.
    + apply status_op_returns_status. eauto with silent.
  - eapply (returns_status_ext _ _ (status_op self (id <~ get_id balancer ;; _))).
    + intros w. unfold status_op. rewrite bind_assoc. reflexivity.
    + apply status_op_returns_status. apply silent_bind; [eauto with silent|].
      intros id. destruct (truthy policies); eauto with silent.
  - eapply (returns_status_ext _ _ (status_op self (id <~ get_id balancer ;; _))).
    + intros w. unfold status_op. rewrite bind_assoc. reflexivity.
    + apply status_op_returns_status. apply silent_bind; [eauto with silent|].
      intros id. destruct (truthy policies); eauto with silent.
  - eapply (returns_status_ext _ _ (status_op self (id <~ get_id balancer ;; _))).
    + intros w. unfold status_op. rewrite bind_assoc. reflexivity.
    + apply status_op_returns_status. apply silent_bind; [eauto with silent|].
      intros id. destruct listeners as [[|l ls]|]; eauto with silent.
Qed.

Lemma status_operations_return_status_witness :
  (ex_delete_balancer_policy (sample_driver (sample_describe []) 503) 0 (VStr "p")
     sample_world).1 = Ok false.
Proof.
  destruct (status_operations_return_status (sample_driver (sample_describe []) 503) 0
              (VStr "p") (VStr "t") None (VInt 80) ItemsNone None) as (_ & H & _).
  destruct (H sample_world
              {| req_path := ROOT;
                 req_params := {[ "Action" := VStr "DeleteLoadBalancerPolicy";
                                  "LoadBalancerName" := VStr "lb1";
                                  "PolicyName" := VStr "p" ]} |}
              {| object := sample_describe []; status := 503 |}) as [_ H'].
  - vm_compute. reflexivity.
  - reflexivity.
  - apply H'. discriminate.
Defined.

(** ** Policy names *)

Lemma format_policy n :
  format_d "PolicyNames.member.%d" n = "PolicyNames.member." +:+ pretty n.
Proof. cbn. by rewrite append_empty_r. Qed.

#[local] Instance format_policy_inj : Inj (=) (=) (format_d "PolicyNames.member.%d").
Proof.
  intros i j. rewrite !format_policy. intros H.
  by apply (inj (String.append _)), (inj pretty) in H.
Qed.

Lemma truthy_policy_names policies : truthy policies = false ↔ policy_names policies = [].
Proof.
  destruct policies as [|s|[|x l]]; simpl; try done.
  destruct (String.eqb s ""); simpl; split; done.
Qed.

(** The conditional call of [_create_list_params] in the two operations. *)
Lemma policies_step base policies w :
  (if truthy policies
   then _create_list_params base policies "PolicyNames.member.%d"
   else ret base) w =
  (Ok (indexed (format_d "PolicyNames.member.%d") (λ v, v) base 0
         (policy_names policies)), w).
Proof.
  destruct policies as [|s|[|x l]]; try reflexivity.
  simpl. by destruct (String.eqb s "").
Qed.

Lemma set_policies_base_no_policy action port_key id port k :
  String.prefix "PolicyNames" port_key = false →
  String.prefix "PolicyNames" k = true →
  set_policies_base action port_key id port !! k = None.
Proof.
  intros Hkey Hk. unfold set_policies_base.
  rewrite !lookup_insert_ne, lookup_singleton_ne; [done|..];
    intros <-; by rewrite ?Hkey in Hk.
Qed.

Lemma set_policies_base_size action port_key id port :
  port_key ≠ "Action" → port_key ≠ "LoadBalancerName" →
  size (set_policies_base action port_key id port) = 3.
Proof.
  intros H1 H2. unfold set_policies_base.
  rewrite !map_size_insert_None, map_size_singleton; [done|..].
  - by rewrite lookup_singleton_ne.
  - rewrite lookup_insert_ne by done. by rewrite lookup_singleton_ne.
Qed.

Lemma policy_params_spec base (names : list value) :
  (∀ k, String.prefix "PolicyNames" k = true → base !! k = None) →
  let P := indexed (format_d "PolicyNames.member.%d") (λ v, v) base 0 names in
  (∀ i, P !! ("PolicyNames.member." +:+ pretty (i + 1)) = names !! i) ∧
  size P = size base + length names ∧
  (∀ k, (∀ n : nat, k ≠ "PolicyNames.member." +:+ pretty n) → P !! k = base !! k).
Proof.
  intros Hbase P. split; [|split].
  - intros i. unfold P. rewrite <- format_policy. change (i + 1) with (0 + i + 1).
    destruct (names !! i) as [v|] eqn:Hi.
    + by apply (indexed_lookup _ (λ v, v) _ 0 _ i v).
    + apply lookup_ge_None in Hi. rewrite (indexed_lookup_ge _ _ _ 0) by done.
      apply Hbase. by rewrite format_policy.
  - apply indexed_size; [apply _|]. intros j _. apply Hbase. by rewrite format_policy.
  - intros k Hk. apply indexed_lookup_other. intros j _. rewrite format_policy. apply Hk.
Qed.

Lemma ex_set_balancer_policies_listener_run self b port policies w lb :
  heap w !! b = Some (OBalancer lb) →
  ex_set_balancer_policies_listener self b port policies w =
  status_op self
    (ret (indexed (format_d "PolicyNames.member.%d") (λ v, v)
            (set_policies_base "SetLoadBalancerPoliciesOfListener" "LoadBalancerPort"
               (lb_id lb) port) 0 (policy_names policies))) w.
Proof.
  intros Hb. unfold ex_set_balancer_policies_listener. destruct w as [h snt].
  erewrite bind_ok by (by apply get_id_run).
  unfold status_op. erewrite !(bind_ok (if truthy policies then _ else _))
    by apply policies_step.
  reflexivity.
Qed.

Lemma ex_set_balancer_policies_backend_server_run self b port policies w lb :
  heap w !! b = Some (OBalancer lb) →
  ex_set_balancer_policies_backend_server self b port policies w =
  status_op self
    (ret (indexed (format_d "PolicyNames.member.%d") (λ v, v)
            (set_policies_base "SetLoadBalancerPoliciesForBackendServer" "InstancePort"
               (lb_id lb) port) 0 (policy_names policies))) w.
Proof.
  intros Hb. unfold ex_set_balancer_policies_backend_server. destruct w as [h snt].
  erewrite bind_ok by (by apply get_id_run).
  unfold status_op. erewrite !(bind_ok (if truthy policies then _ else _))
    by apply policies_step.
  reflexivity.
Qed.

Lemma status_op_sent self P w :
  sent (status_op self (ret P) w).2 =
  sent w ++ [{| req_path := ROOT; req_params := P |}].
Proof.
  rewrite (status_op_run _ _ _ P) by done. by destruct (respond _ _ _).
Qed.

(** C8: [ex_set_balancer_policies_listener] and
    [ex_set_balancer_policies_backend_server] issue one request each; with an
    empty or falsy [policies] its parameters are the action, the name of the
    balancer and the port and nothing else, so no PolicyNames parameter; with
    a non-empty list (or a bare non-empty string, taken as a list of one)
    there is in addition [PolicyNames.member.i], i from 1, for each policy
    name in order, and nothing else. *)
Theorem set_balancer_policies_params self b port policies w lb :
  heap w !! b = Some (OBalancer lb) →
  let names := policy_names policies in
  let base_l := set_policies_base "SetLoadBalancerPoliciesOfListener"
                  "LoadBalancerPort" (lb_id lb) port in
  let base_b := set_policies_base "SetLoadBalancerPoliciesForBackendServer"
                  "InstancePort" (lb_id lb) port in
  ∃ Pl Pb : gmap string value,
    (sent (ex_set_balancer_policies_listener self b port policies w).2 =
       sent w ++ [{| req_path := ROOT; req_params := Pl |}] ∧
     sent (ex_set_balancer_policies_backend_server self b port policies w).2 =
       sent w ++ [{| req_path := ROOT; req_params := Pb |}]) ∧
    (truthy policies = false → Pl = base_l ∧ Pb = base_b) ∧
    (size base_l = 3 ∧ size base_b = 3 ∧
     ∀ k, String.prefix "PolicyNames" k = true → base_l !! k = None ∧ base_b !! k = None) ∧
    ((∀ l, policies = ItemsList l → names = l) ∧
     (∀ s, policies = ItemsStr s → s ≠ "" → names = [VStr s])) ∧
    (∀ i, Pl !! ("PolicyNames.member." +:+ pretty (i + 1)) = names !! i ∧
          Pb !! ("PolicyNames.member." +:+ pretty (i + 1)) = names !! i) ∧
    (size Pl = 3 + length names ∧ size Pb = 3 + length names) ∧
    (∀ k, (∀ n : nat, k ≠ "PolicyNames.member." +:+ pretty n) →
          Pl !! k = base_l !! k ∧ Pb !! k = base_b !! k).
Proof.
  intros Hb names base_l base_b.
  assert (∀ k, String.prefix "PolicyNames" k = true → base_l !! k = None) as Hl.
  { intros k Hk. unfold base_l. apply set_policies_base_no_policy; [reflexivity | exact Hk]. }
  assert (∀ k, String.prefix "PolicyNames" k = true → base_b !! k = None) as Hbk.
  { intros k Hk. unfold base_b. apply set_policies_base_no_policy; [reflexivity | exact Hk]. }
  assert (size base_l = 3) as Hsl by (apply set_policies_base_size; discriminate).
  assert (size base_b = 3) as Hsb by (apply set_policies_base_size; discriminate).
  destruct (policy_params_spec base_l names Hl) as (Hl1 & Hl2 & Hl3).
  destruct (policy_params_spec base_b names Hbk) as (Hb1 & Hb2 & Hb3).
  eexists _, _. split; [|split; [|split; [|split; [|split; [|split]]]]].
  - rewrite (ex_set_balancer_policies_listener_run _ _ _ _ _ _ Hb),
      (ex_set_balancer_policies_backend_server_run _ _ _ _ _ _ Hb).
    split; apply status_op_sent.
  - intros Hf. apply truthy_policy_names in Hf. unfold names. rewrite Hf.
    rewrite !indexed_nil. split; reflexivity.
  - split; [exact Hsl|]. split; [exact Hsb|]. intros k Hk. split; [by apply Hl | by apply Hbk].
  - clear. split.
    + intros l Hp. unfold names. rewrite Hp. reflexivity.
    + intros s Hp Hs. unfold names. rewrite Hp. simpl.
      destruct (String.eqb_spec s ""); [contradiction | reflexivity].
  - intros i. split; [apply Hl1 | apply Hb1].
  - split.
    + etransitivity; [exact Hl2|]. rewrite Hsl. reflexivity.
    + etransitivity; [exact Hb2|]. rewrite Hsb. reflexivity.
  - intros k Hk. split; [by apply Hl3 | by apply Hb3].
Qed.

Lemma set_balancer_policies_params_witness :
  ∃ Pl,
    sent (ex_set_balancer_policies_listener (sample_driver (sample_describe []) 200) 0
            (VInt 80) (ItemsList [VStr "p1"; VStr "p2"]) sample_world).2 =
      sent sample_world ++ [{| req_path := ROOT; req_params := Pl |}] ∧
    Pl !! ("PolicyNames.member." +:+ pretty (1 + 1)) = Some (VStr "p2") ∧
    size Pl = 5.
Proof.
  destruct (set_balancer_policies_params (sample_driver (sample_describe []) 200) 0
              (VInt 80) (ItemsList [VStr "p1"; VStr "p2"]) sample_world _ eq_refl)
    as (Pl & Pb & [Hs _] & _ & _ & _ & Hi & [Hn _] & _).
  exists Pl. split; [exact Hs|]. split; [apply (Hi 1) | exact Hn].
Defined.

Example set_policies_empty_sends_three :
  sent (ex_set_balancer_policies_listener (sample_driver (sample_describe []) 200) 0
          (VInt 80) (ItemsList []) sample_world).2 =
  [{| req_path := ROOT;
      req_params := {[ "Action" := VStr "SetLoadBalancerPoliciesOfListener";
                       "LoadBalancerName" := VStr "lb1";
                       "LoadBalancerPort" := VStr "80" ]} |}].
Proof. vm_compute. reflexivity. Qed.

(** ** Listener keys *)

Lemma dotless_app_inv s1 s2 t1 t2 :
  dotless s1 → dotless s2 →
  s1 +:+ String "." t1 = s2 +:+ String "." t2 → s1 = s2 ∧ t1 = t2.
Proof.
  revert s2. induction s1 as [|c1 s1 IH]; intros [|c2 s2] H1 H2 Heq.
  - by injection Heq as ->.
  - injection Heq as <- _. by destruct H2.
  - injection Heq as -> _. by destruct H1.
  - injection Heq as -> Heq. destruct H1 as [_ H1], H2 as [_ H2].
    destruct (IH _ H1 H2 Heq) as [-> ->]. done.
Qed.

Lemma pretty_N_char_dotless x : pretty_N_char x ≠ "."%char.
Proof. unfold pretty_N_char. by repeat case_match. Qed.

Lemma pretty_N_go_dotless x s : dotless s → dotless (pretty_N_go x s).
Proof.
  revert s. induction (N.lt_wf_0 x) as [x _ IH]; intros s Hs.
  destruct (decide (x = 0)%N) as [->|Hx].
  - by rewrite pretty_N_go_0.
  - rewrite pretty_N_go_step by lia. apply IH.
    + apply N.div_lt; lia.
    + split; [apply pretty_N_char_dotless | done].
Qed.

Lemma pretty_nat_dotless (n : nat) : dotless (pretty n).
Proof.
  unfold pretty, pretty_nat, pretty, pretty_N.
  case_decide; [by repeat split | by apply pretty_N_go_dotless].
Qed.

(** Two keys of listener parameters are equal only when they have the same
    number and the same field. *)
Lemma listener_key_inj (i j : nat) (s t : string) :
  "Listeners.member." +:+ (pretty i +:+ String "." s) =
  "Listeners.member." +:+ (pretty j +:+ String "." t) →
  i = j ∧ s = t.
Proof.
  intros H. apply (inj (String.append _)) in H.
  apply dotless_app_inv in H as [H ->]; [|apply pretty_nat_dotless..].
  by apply (inj pretty) in H.
Qed.

Lemma format_certificate n :
  format_d "Listeners.member.%d.SSLCertificateId" n =
  "Listeners.member." +:+ (pretty n +:+ ".SSLCertificateId").
Proof. reflexivity. Qed.

Lemma format_protocol n :
  format_d "Listeners.member.%d.Protocol" n =
  "Listeners.member." +:+ (pretty n +:+ ".Protocol").
Proof. reflexivity. Qed.

Lemma format_instance_port n :
  format_d "Listeners.member.%d.InstancePort" n =
  "Listeners.member." +:+ (pretty n +:+ ".InstancePort").
Proof. reflexivity. Qed.

Lemma format_balancer_port n :
  format_d "Listeners.member.%d.LoadBalancerPort" n =
  "Listeners.member." +:+ (pretty n +:+ ".LoadBalancerPort").
Proof. reflexivity. Qed.

Lemma certificate_key_inj i j :
  format_d "Listeners.member.%d.SSLCertificateId" i =
  format_d "Listeners.member.%d.SSLCertificateId" j → i = j.
Proof. rewrite !format_certificate. intros H. by apply listener_key_inj in H as [-> _]. Qed.

Lemma certificate_key_ne_protocol i j :
  format_d "Listeners.member.%d.Protocol" i ≠
  format_d "Listeners.member.%d.SSLCertificateId" j.
Proof.
  rewrite format_certificate, format_protocol. intros H.
  by apply listener_key_inj in H as [_ H].
Qed.

Lemma certificate_key_ne_instance_port i j :
  format_d "Listeners.member.%d.InstancePort" i ≠
  format_d "Listeners.member.%d.SSLCertificateId" j.
Proof.
  rewrite format_certificate, format_instance_port. intros H.
  by apply listener_key_inj in H as [_ H].
Qed.

Lemma certificate_key_ne_balancer_port i j :
  format_d "Listeners.member.%d.LoadBalancerPort" i ≠
  format_d "Listeners.member.%d.SSLCertificateId" j.
Proof.
  rewrite format_certificate, format_balancer_port. intros H.
  by apply listener_key_inj in H as [_ H].
Qed.

(** ** ex_create_balancer_listeners *)

Lemma certificate_of_ok x y protocol rest :
  certificate_of (x :: y :: VStr protocol :: rest) =
  if is_tls protocol then rest !! 0 else None.
Proof. reflexivity. Qed.

(** A turn of the loop on a tuple it gets through. *)
Lemma listener_params_ok params index listener w :
  listener_ok listener →
  listener_params params (index, listener) w =
  (Ok (listener_block params (index + 1) listener), w).
Proof.
  intros (x & y & protocol & rest & -> & Hrest).
  unfold listener_block. rewrite certificate_of_ok.
  unfold listener_params, bind, lift, ret, subscript. simpl.
  fold (is_tls protocol). destruct (is_tls protocol); [|done].
  destruct rest as [|c rest]; [by destruct Hrest | done].
Qed.

(** A turn of the loop on a 3-tuple whose protocol is HTTPS or SSL. *)
Lemma listener_params_no_certificate params index x y protocol w :
  is_tls protocol = true →
  listener_params params (index, [x; y; VStr protocol]) w = (Raise IndexError, w).
Proof.
  intros Htls. unfold listener_params, bind, lift, ret, subscript. simpl.
  fold (is_tls protocol). by rewrite Htls.
Qed.

Lemma foldM_listener_params_ok params start listeners w :
  Forall listener_ok listeners →
  foldM listener_params params (enumerate start listeners) w =
  (Ok (listener_blocks params start listeners), w).
Proof.
  intros Hok. revert params start.
  induction Hok as [|listener listeners Hl _ IH]; intros params start; [done|].
  simpl. erewrite bind_ok by (by apply listener_params_ok). apply IH.
Qed.

Lemma foldM_listener_params_no_certificate params start pre x y protocol post w :
  Forall listener_ok pre →
  is_tls protocol = true →
  foldM listener_params params (enumerate start (pre ++ [x; y; VStr protocol] :: post)) w =
  (Raise IndexError, w).
Proof.
  intros Hok Htls. revert params start.
  induction Hok as [|listener listeners Hl _ IH]; intros params start; simpl.
  - by erewrite bind_raise by (by apply listener_params_no_certificate).
  - erewrite bind_ok by (by apply listener_params_ok). apply IH.
Qed.

Lemma listener_block_certificate_other params i listener n :
  n ≠ i →
  listener_block params i listener !! format_d "Listeners.member.%d.SSLCertificateId" n =
  params !! format_d "Listeners.member.%d.SSLCertificateId" n.
Proof.
  intros Hn. unfold listener_block.
  destruct listener as [|x [|y [|p rest]]]; try done.
  destruct (certificate_of _).
  - rewrite lookup_insert_ne by (intros H; by apply certificate_key_inj in H).
    rewrite !lookup_insert_ne;
      auto using certificate_key_ne_protocol, certificate_key_ne_instance_port,
        certificate_key_ne_balancer_port.
  - rewrite !lookup_insert_ne;
      auto using certificate_key_ne_protocol, certificate_key_ne_instance_port,
        certificate_key_ne_balancer_port.
Qed.

Lemma listener_block_certificate params i listener :
  params !! format_d "Listeners.member.%d.SSLCertificateId" i = None →
  listener_block params i listener !! format_d "Listeners.member.%d.SSLCertificateId" i =
  certificate_of listener.
Proof.
  intros Hnone. unfold listener_block.
  destruct listener as [|x [|y [|p rest]]]; try done.
  destruct (certificate_of _) as [c|].
  - apply lookup_insert_eq.
  - rewrite !lookup_insert_ne;
      auto using certificate_key_ne_protocol, certificate_key_ne_instance_port,
        certificate_key_ne_balancer_port.
Qed.

Lemma listener_blocks_certificate_low params start listeners n :
  n ≤ start →
  listener_blocks params start listeners
    !! format_d "Listeners.member.%d.SSLCertificateId" n =
  params !! format_d "Listeners.member.%d.SSLCertificateId" n.
Proof.
  revert params start. induction listeners as [|l ls IH]; intros params start Hn; [done|].
  simpl. rewrite IH by lia. apply listener_block_certificate_other. lia.
Qed.

Lemma listener_blocks_certificate params start listeners i :
  (∀ n, start < n → params !! format_d "Listeners.member.%d.SSLCertificateId" n = None) →
  listener_blocks params start listeners
    !! format_d "Listeners.member.%d.SSLCertificateId" (start + i + 1) =
  listeners !! i ≫= certificate_of.
Proof.
  revert params start i. induction listeners as [|l ls IH]; intros params start i Hnone.
  - apply Hnone. lia.
  - simpl listener_blocks. destruct i as [|i].
    + rewrite listener_blocks_certificate_low by lia.
      replace (start + 0 + 1) with (start + 1) by lia.
      apply listener_block_certificate, Hnone. lia.
    + replace (start + S i + 1) with (S start + i + 1) by lia.
      rewrite (IH _ (S start) i); [done|].
      intros n Hn. rewrite listener_block_certificate_other by lia.
      apply Hnone. lia.
Qed.

Lemma listeners_base_certificate id n :
  listeners_base id !! format_d "Listeners.member.%d.SSLCertificateId" n = None.
Proof.
  rewrite format_certificate. unfold listeners_base.
  rewrite lookup_insert_ne by discriminate. by rewrite lookup_singleton_ne by discriminate.
Qed.

Lemma certificate_of_is_Some listener protocol :
  listener_ok listener →
  listener !! 2 = Some (VStr protocol) →
  is_Some (certificate_of listener) ↔ is_tls protocol = true.
Proof.
  intros (x & y & p & rest & -> & Hrest) [= ->].
  rewrite certificate_of_ok. destruct (is_tls protocol).
  - split; [done|]. intros _. destruct rest; [by destruct Hrest | by eexists].
  - split; [by intros [? ?] | done].
Qed.

(** The loop of [ex_create_balancer_listeners], over the listeners as
    given: none at all when the argument is [None] or empty. *)
Lemma ex_create_balancer_listeners_run self b listeners w lb :
  heap w !! b = Some (OBalancer lb) →
  ex_create_balancer_listeners self b (Some listeners) w =
  status_op self (foldM listener_params (listeners_base (lb_id lb))
                    (enumerate 0 listeners)) w.
Proof.
  intros Hb. unfold ex_create_balancer_listeners. destruct w as [h snt].
  erewrite bind_ok by (by apply get_id_run).
  by destruct listeners.
Qed.

Lemma listener_ok_no_tls x y protocol rest :
  is_tls protocol = false → listener_ok (x :: y :: VStr protocol :: rest).
Proof. intros H. exists x, y, protocol, rest. split; [done|]. by rewrite H. Qed.

Lemma http_is_not_tls protocol : upper protocol = "HTTP" → is_tls protocol = false.
Proof. unfold is_tls. by intros ->. Qed.

(** C2 (amended): in [ex_create_balancer_listeners], when every listener
    tuple has its three elements and, for HTTPS or SSL, a fourth, the request
    is issued and carries [Listeners.member.i.SSLCertificateId] for the i-th
    tuple if and only if its protocol, upper-cased, is HTTPS or SSL, with the
    tuple's fourth element as value; a 3-tuple whose protocol is HTTPS or SSL
    makes the call fail before any request with the IndexError of the
    subscript [listener[3]], a subscript fault and no checked
    invalid-argument error; a 3-tuple whose protocol is HTTP goes through and
    yields no certificate parameter. *)
Theorem create_balancer_listeners_certificate self b w lb listeners :
  heap w !! b = Some (OBalancer lb) →
  let out := ex_create_balancer_listeners self b (Some listeners) w in
  (Forall listener_ok listeners →
     ∃ P : gmap string value,
       out = status_op self (ret P) w ∧
       sent out.2 = sent w ++ [{| req_path := ROOT; req_params := P |}] ∧
       (∀ i, P !! ("Listeners.member." +:+ pretty (i + 1) +:+ ".SSLCertificateId") =
             listeners !! i ≫= certificate_of) ∧
       (∀ i listener protocol,
          listeners !! i = Some listener →
          listener !! 2 = Some (VStr protocol) →
          (is_Some (P !! ("Listeners.member." +:+ pretty (i + 1) +:+ ".SSLCertificateId"))
           ↔ is_tls protocol = true) ∧
          (is_tls protocol = true →
           P !! ("Listeners.member." +:+ pretty (i + 1) +:+ ".SSLCertificateId") =
           listener !! 3))) ∧
  (∀ pre x y protocol post,
     listeners = pre ++ [x; y; VStr protocol] :: post →
     Forall listener_ok pre →
     is_tls protocol = true →
     out = (Raise IndexError, w) ∧ fails_with_class out IndexingFault) ∧
  (∀ x y protocol,
     upper protocol = "HTTP" →
     listener_ok [x; y; VStr protocol] ∧ certificate_of [x; y; VStr protocol] = None).
Proof.
  intros Hb out. split; [|split].
  - intros Hok.
    pose (P := listener_blocks (listeners_base (lb_id lb)) 0 listeners).
    assert (∀ i, P !! ("Listeners.member." +:+ pretty (i + 1) +:+ ".SSLCertificateId") =
                 listeners !! i ≫= certificate_of) as Hcert.
    { intros i. rewrite <- format_certificate. change (i + 1) with (0 + i + 1).
      apply listener_blocks_certificate. intros n _. apply listeners_base_certificate. }
    assert (out = status_op self (ret P) w) as Hout.
    { unfold out. rewrite (ex_create_balancer_listeners_run _ _ _ _ _ Hb).
      unfold status_op.
      by erewrite !(bind_ok (foldM _ _ _)) by (by apply foldM_listener_params_ok). }
    exists P. split; [done|]. split; [rewrite Hout; apply status_op_sent|].
    split; [done|]. intros i listener protocol Hi Hp. rewrite Hcert, Hi. simpl.
    split.
    + apply certificate_of_is_Some; [|done].
      by eapply Forall_lookup_1 in Hok.
    + intros Htls. unfold certificate_of. by rewrite Hp, Htls.
  - intros pre x y protocol post -> Hok Htls.
    assert (out = (Raise IndexError, w)) as Hout.
    { unfold out. rewrite (ex_create_balancer_listeners_run _ _ _ _ _ Hb).
      unfold status_op.
      by erewrite bind_raise by (by apply foldM_listener_params_no_certificate). }
    split; [done|]. exists IndexError. by rewrite Hout.
  - intros x y protocol Hp. apply http_is_not_tls in Hp.
    split; [by apply listener_ok_no_tls|]. by rewrite certificate_of_ok, Hp.
Qed.

Lemma create_balancer_listeners_certificate_witness :
  ∃ P : gmap string value,
    ex_create_balancer_listeners (sample_driver (sample_describe []) 200) 0
      (Some [[VInt 443; VInt 8443; VStr "https"; VStr "arn:cert"];
             [VInt 80; VInt 8080; VStr "http"]]) sample_world =
      status_op (sample_driver (sample_describe []) 200) (ret P) sample_world ∧
    P !! ("Listeners.member." +:+ pretty (0 + 1) +:+ ".SSLCertificateId") =
      Some (VStr "arn:cert") ∧
    P !! ("Listeners.member." +:+ pretty (1 + 1) +:+ ".SSLCertificateId") = None.
Proof.
  destruct (create_balancer_listeners_certificate
              (sample_driver (sample_describe []) 200) 0 sample_world _
              [[VInt 443; VInt 8443; VStr "https"; VStr "arn:cert"];
               [VInt 80; VInt 8080; VStr "http"]] eq_refl) as [H _].
  destruct H as (P & Hout & _ & Hcert & _).
  - repeat constructor.
    + exists (VInt 443), (VInt 8443), "https", [VStr "arn:cert"].
      split; [reflexivity | discriminate].
    + exists (VInt 80), (VInt 8080), "http", [].
      split; [reflexivity | intros Htls; vm_compute in Htls; discriminate].
  - exists P. split; [exact Hout|]. split; [apply (Hcert 0) | apply (Hcert 1)].
Defined.

(** C2 as stated fails: a 3-tuple with protocol HTTPS makes the call fail,
    but not with a failure of the invalid-argument class. *)
Lemma create_balancer_listeners_counterexample :
  is_tls "HTTPS" = true ∧
  [VInt 443; VInt 8443; VStr "HTTPS"] !! 3 = None ∧
  ex_create_balancer_listeners (sample_driver (sample_describe []) 200) 0
    (Some [[VInt 443; VInt 8443; VStr "HTTPS"]]) sample_world =
    (Raise IndexError, sample_world) ∧
  ¬ fails_with_class
      (ex_create_balancer_listeners (sample_driver (sample_describe []) 200) 0
         (Some [[VInt 443; VInt 8443; VStr "HTTPS"]]) sample_world)
      InvalidArgument.
Proof.
  assert (ex_create_balancer_listeners (sample_driver (sample_describe []) 200) 0
            (Some [[VInt 443; VInt 8443; VStr "HTTPS"]]) sample_world =
          (Raise IndexError, sample_world)) as Hrun by (vm_compute; reflexivity).
  repeat split; try done.
  intros (e & He & Hc). rewrite Hrun in He. injection He as <-. discriminate Hc.
Qed.

(** * The driver as a whole *)

(** ** Computations that issue no request *)

Lemma silent_mute {A} (m : M A) : silent m → mute m.
Proof. intros Hm w. by rewrite Hm. Qed.

Lemma mute_ret {A} (a : A) : mute (ret a).
Proof. by intros w. Qed.

Lemma mute_bind {A B} (m : M A) (f : A → M B) :
  mute m → (∀ a, mute (f a)) → mute (bind m f).
Proof.
  intros Hm Hf w. unfold bind. specialize (Hm w).
  destruct (m w) as [[a|e] w']; simpl in *; [|done].
  by rewrite Hf.
Qed.

Lemma mute_alloc o : mute (alloc o).
Proof. by intros w. Qed.

Lemma mute_set_members b l : mute (set_members b l).
Proof.
  intros w. unfold set_members, bind, read_balancer.
  by destruct (heap w !! b) as [[]|].
Qed.

Lemma mute_list_append l m : mute (list_append l m).
Proof. intros w. unfold list_append. by destruct (heap w !! l) as [[]|]. Qed.

Lemma silent_list_items l : silent (list_items l).
Proof. intros w. unfold list_items. by destruct (heap w !! l) as [[]|]. Qed.

Lemma mute_forM_ {A} (xs : list A) (f : A → M unit) :
  (∀ x, mute (f x)) → mute (forM_ xs f).
Proof.
  intros Hf. induction xs as [|x xs IH]; simpl; [apply mute_ret|].
  apply mute_bind; auto.
Qed.

Lemma mute_mapM {A B} (f : A → M B) (xs : list A) :
  (∀ x, mute (f x)) → mute (mapM f xs).
Proof.
  intros Hf. induction xs as [|x xs IH]; simpl; [apply mute_ret|].
  apply mute_bind; [done|]. intros y.
  apply mute_bind; [done|]. intros ys. apply mute_ret.
Qed.

Lemma mute__to_balancer el : mute (_to_balancer el).
Proof. intros w. by rewrite _to_balancer_run. Qed.

Lemma mute__to_balancers data : mute (_to_balancers data).
Proof. apply mute_mapM, mute__to_balancer. Qed.

Create HintDb mute.
#[local] Hint Resolve silent_mute mute_ret mute_bind mute_alloc mute_set_members
  mute_list_append mute_forM_ mute_mapM mute__to_balancer mute__to_balancers
  silent_get_members silent_get_id silent_list_items silent_lift silent_ret : mute.

(** ** The shape of an operation *)

Lemma request_op_run {A B} self (pre : M A) params (post : A → Response → M B) w a :
  pre w = (Ok a, w) →
  request_op self pre params post w =
  match respond (connection self) (sent w)
          {| req_path := ROOT; req_params := params a |} with
  | Ok r =>
      post a r {| heap := heap w;
                  sent := sent w ++ [{| req_path := ROOT; req_params := params a |}] |}
  | Raise e =>
      (Raise e, {| heap := heap w;
                   sent := sent w ++ [{| req_path := ROOT; req_params := params a |}] |})
  end.
Proof.
  intros Hpre. unfold request_op. erewrite bind_ok by exact Hpre.
  unfold bind, request. by destruct (respond _ _ _).
Qed.

Lemma request_op_pre_raise {A B} self (pre : M A) params (post : A → Response → M B)
    w e :
  pre w = (Raise e, w) → request_op self pre params post w = (Raise e, w).
Proof. intros Hpre. unfold request_op. by erewrite bind_raise by exact Hpre. Qed.

Lemma request_op_sent {A B} self (pre : M A) params (post : A → Response → M B) w :
  silent pre → (∀ a r, mute (post a r)) →
  match (pre w).1 with
  | Ok a => sent (request_op self pre params post w).2 =
            sent w ++ [{| req_path := ROOT; req_params := params a |}]
  | Raise e => request_op self pre params post w = (Raise e, w)
  end.
Proof.
  intros Hpre Hpost. pose proof (silent_run pre w Hpre) as Hrun.
  destruct (pre w).1 as [a|e].
  - rewrite (request_op_run _ _ _ _ _ _ Hrun).
    destruct (respond _ _ _) as [r|e]; [|done]. by rewrite Hpost.
  - by apply request_op_pre_raise.
Qed.

Lemma request_op_at_most_one {A B} self (pre : M A) params (post : A → Response → M B) :
  silent pre → (∀ a r, mute (post a r)) →
  at_most_one_request (request_op self pre params post).
Proof.
  intros Hpre Hpost w. pose proof (request_op_sent self pre params post w Hpre Hpost) as H.
  destruct (pre w).1 as [a|e]; [right; eauto | left; by rewrite H].
Qed.

Lemma request_op_propagates {A B} self (pre : M A) params (post : A → Response → M B) :
  silent pre → (∀ a r, mute (post a r)) →
  propagates_transport_error self (request_op self pre params post).
Proof.
  intros Hpre Hpost w rq e Hsent Hr.
  pose proof (request_op_sent self pre params post w Hpre Hpost) as H.
  pose proof (silent_run pre w Hpre) as Hrun.
  destruct (pre w).1 as [a|e'].
  - rewrite H in Hsent. apply (inj (app _)) in Hsent. injection Hsent as <-.
    by rewrite (request_op_run _ _ _ _ _ _ Hrun), Hr.
  - rewrite H in Hsent. simpl in Hsent.
    rewrite <- (app_nil_r (sent w)) in Hsent at 1. by apply (inj (app _)) in Hsent.
Qed.

Lemma request_op_keeps_heap {A B} self (pre : M A) params (post : A → Response → M B) :
  silent pre → (∀ a r, silent (post a r)) →
  keeps_heap (request_op self pre params post).
Proof.
  intros Hpre Hpost w. pose proof (silent_run pre w Hpre) as Hrun.
  destruct (pre w).1 as [a|e].
  - rewrite (request_op_run _ _ _ _ _ _ Hrun).
    destruct (respond _ _ _) as [r|e]; [|done]. by rewrite Hpost.
  - by rewrite (request_op_pre_raise _ _ _ _ _ _ Hrun).
Qed.

Lemma reading_shape_request_shape {B} self (op : M B) :
  has_reading_shape self op → has_request_shape self op.
Proof.
  intros (A & pre & params & post & Hpre & Hpost & Heq).
  exists A, pre, params, post. auto using silent_mute.
Qed.

Lemma shape_at_most_one {B} self (op : M B) :
  has_request_shape self op → at_most_one_request op.
Proof.
  intros (A & pre & params & post & Hpre & Hpost & Heq) w. rewrite Heq.
  by apply request_op_at_most_one.
Qed.

Lemma shape_propagates {B} self (op : M B) :
  has_request_shape self op → propagates_transport_error self op.
Proof.
  intros (A & pre & params & post & Hpre & Hpost & Heq) w rq e. rewrite !Heq.
  by apply request_op_propagates.
Qed.

Lemma shape_keeps_heap {B} self (op : M B) :
  has_reading_shape self op → keeps_heap op.
Proof.
  intros (A & pre & params & post & Hpre & Hpost & Heq) w. rewrite Heq.
  by apply request_op_keeps_heap.
Qed.

(** ** The shape of each operation *)

Lemma list_balancers_shape self : has_request_shape self (list_balancers self).
Proof.
  exists unit, (ret tt), (λ _, {[ "Action" := VStr "DescribeLoadBalancers" ]}),
    (λ _ r, _to_balancers (object r)).
  split; [apply silent_ret|]. split; [eauto with mute | done].
Qed.

Lemma create_balancer_shape self name port protocol algorithm members zones :
  has_request_shape self
    (create_balancer self name port protocol algorithm members zones).
Proof.
  exists unit, (ret tt),
    (λ _, create_balancer_params self name port protocol zones),
    (λ _ r,
       balancer <~ alloc (OBalancer
         {| lb_id := name; lb_name := name; lb_state := PENDING;
            lb_ip := findtext (object r) "DNSName" NS; lb_port := port;
            lb_driver := DriverRef; lb_members := None |}) ;;
       l <~ alloc (OList []) ;;
       set_members balancer l ;;;
       ret balancer).
  split; [apply silent_ret|]. split; [|done].
  intros _ r. repeat (apply mute_bind; [eauto with mute | intros ?]). apply mute_ret.
Qed.

Lemma get_balancer_shape self balancer_id :
  has_request_shape self (get_balancer self balancer_id).
Proof.
  exists unit, (ret tt),
    (λ _, {[ "Action" := VStr "DescribeLoadBalancers";
             "LoadBalancerNames.member.1" := balancer_id ]}),
    (λ _ r, bs <~ _to_balancers (object r) ;; lift (subscript bs 0)).
  split; [apply silent_ret|]. split; [|done].
  intros _ r. apply mute_bind; eauto with mute.
Qed.

Lemma destroy_balancer_shape self balancer :
  has_reading_shape self (destroy_balancer self balancer).
Proof.
  exists value, (get_id balancer),
    (λ id, {[ "Action" := VStr "DeleteLoadBalancer"; "LoadBalancerName" := id ]}),
    (λ _ _, ret true).
  split; [apply silent_get_id|]. split; [intros; apply silent_ret | done].
Qed.

Lemma balancer_attach_compute_node_shape self balancer node :
  has_request_shape self (balancer_attach_compute_node self balancer node).
Proof.
  exists value, (get_id balancer),
    (λ id, {[ "Action" := VStr "RegisterInstancesWithLoadBalancer";
              "LoadBalancerName" := id;
              "Instances.member.1.InstanceId" := node_id node ]}),
    (λ _ _, ms <~ get_members balancer ;;
            list_append ms {| m_id := node_id node; m_ip := VNone; m_port := VNone;
                              m_balancer := DriverRef |}).
  split; [apply silent_get_id|]. split; [|done].
  intros _ _. apply mute_bind; eauto with mute.
Qed.

Lemma balancer_detach_member_shape self balancer member :
  has_request_shape self (balancer_detach_member self balancer member).
Proof.
  exists value, (get_id balancer),
    (λ id, {[ "Action" := VStr "DeregisterInstancesFromLoadBalancer";
              "LoadBalancerName" := id;
              "Instances.member.1.InstanceId" := m_id member ]}),
    (λ _ _, old <~ get_members balancer ;;
            ms <~ list_items old ;;
            new <~ alloc (OList (filter (λ m, m_id m ≠ m_id member) ms)) ;;
            set_members balancer new ;;;
            ret true).
  split; [apply silent_get_id|]. split; [|done].
  intros _ _. repeat (apply mute_bind; [eauto with mute | intros ?]). apply mute_ret.
Qed.

Lemma ex_list_balancer_policies_shape self balancer :
  has_reading_shape self (ex_list_balancer_policies self balancer).
Proof.
  exists value, (get_id balancer),
    (λ id, {[ "Action" := VStr "DescribeLoadBalancerPolicies";
              "LoadBalancerName" := id ]}),
    (λ _ r, ret (_to_policies (object r))).
  split; [apply silent_get_id|]. split; [intros; apply silent_ret | done].
Qed.

Lemma ex_list_balancer_policy_types_shape self :
  has_reading_shape self (ex_list_balancer_policy_types self).
Proof.
  exists unit, (ret tt),
    (λ _, {[ "Action" := VStr "DescribeLoadBalancerPolicyTypes" ]}),
    (λ _ r, ret (_to_policy_types (object r))).
  split; [apply silent_ret|]. split; [intros; apply silent_ret | done].
Qed.

Lemma status_op_shape self build : silent build → has_reading_shape self (status_op self build).
Proof.
  intros Hb. exists (gmap string value), build, (λ params, params),
    (λ _ response, ret (bool_decide (status response = OK))).
  split; [done|]. split; [intros; apply silent_ret | done].
Qed.

Lemma reading_shape_ext {B} self (op op' : M B) :
  (∀ w, op w = op' w) → has_reading_shape self op' → has_reading_shape self op.
Proof.
  intros Heq (A & pre & params & post & Hpre & Hpost & Heq').
  exists A, pre, params, post. split; [done|]. split; [done|].
  intros w. by rewrite Heq.
Qed.

Lemma ex_create_balancer_policy_shape self balancer policy_name policy_type attributes :
  has_reading_shape self
    (ex_create_balancer_policy self balancer policy_name policy_type attributes).
Proof.
  eapply (reading_shape_ext _ _ (status_op self (id <~ get_id balancer ;; ret _))).
  - intros w. unfold status_op. rewrite bind_assoc. reflexivity.
  - apply status_op_shape. eauto with silent.
Qed.

Lemma ex_delete_balancer_policy_shape self balancer policy_name :
  has_reading_shape self (ex_delete_balancer_policy self balancer policy_name).
Proof.
  eapply (reading_shape_ext _ _ (status_op self (id <~ get_id balancer ;; ret _))).
  - intros w. unfold status_op. rewrite bind_assoc. reflexivity.
  - apply status_op_shape. eauto with silent.
Qed.

Lemma ex_set_balancer_policies_listener_shape self balancer port policies :
  has_reading_shape self (ex_set_balancer_policies_listener self balancer port policies).
Proof.
  eapply (reading_shape_ext _ _ (status_op self (id <~ get_id balancer ;; _))).
  - intros w. unfold status_op. rewrite bind_assoc. reflexivity.
  - apply status_op_shape. apply silent_bind; [eauto with silent|].
    intros id. destruct (truthy policies); eauto with silent.
Qed.

Lemma ex_set_balancer_policies_backend_server_shape self balancer port policies :
  has_reading_shape self
    (ex_set_balancer_policies_backend_server self balancer port policies).
Proof.
  eapply (reading_shape_ext _ _ (status_op self (id <~ get_id balancer ;; _))).
  - intros w. unfold status_op. rewrite bind_assoc. reflexivity.
  - apply status_op_shape. apply silent_bind; [eauto with silent|].
    intros id. destruct (truthy policies); eauto with silent.
Qed.

Lemma ex_create_balancer_listeners_shape self balancer listeners :
  has_reading_shape self (ex_create_balancer_listeners self balancer listeners).
Proof.
  eapply (reading_shape_ext _ _ (status_op self (id <~ get_id balancer ;; _))).
  - intros w. unfold status_op. rewrite bind_assoc. reflexivity.
  - apply status_op_shape. apply silent_bind; [eauto with silent|].
    intros id. destruct listeners as [[|l ls]|]; eauto with silent.
Qed.

(** ** What no operation does *)

(** X1: no operation of the driver issues more than one request in a call,
    and every request goes to the root path; [balancer_list_members] issues
    none. *)
Theorem operations_issue_at_most_one_request self balancer node member
    name port protocol algorithm members zones balancer_id
    policy_name policy_type policy_attributes policies listeners :
  at_most_one_request (list_balancers self) ∧
  at_most_one_request (create_balancer self name port protocol algorithm members zones) ∧
  at_most_one_request (destroy_balancer self balancer) ∧
  at_most_one_request (get_balancer self balancer_id) ∧
  at_most_one_request (balancer_attach_compute_node self balancer node) ∧
  at_most_one_request (balancer_detach_member self balancer member) ∧
  (∀ w, sent (balancer_list_members self balancer w).2 = sent w) ∧
  at_most_one_request (ex_list_balancer_policies self balancer) ∧
  at_most_one_request (ex_list_balancer_policy_types self) ∧
  at_most_one_request
    (ex_create_balancer_policy self balancer policy_name policy_type policy_attributes) ∧
  at_most_one_request (ex_delete_balancer_policy self balancer policy_name) ∧
  at_most_one_request (ex_set_balancer_policies_listener self balancer port policies) ∧
  at_most_one_request
    (ex_set_balancer_policies_backend_server self balancer port policies) ∧
  at_most_one_request (ex_create_balancer_listeners self balancer listeners).
Proof.
  repeat apply conj; try apply (shape_at_most_one self).
  - apply list_balancers_shape.
  - apply create_balancer_shape.
  - apply reading_shape_request_shape, destroy_balancer_shape.
  - apply get_balancer_shape.
  - apply balancer_attach_compute_node_shape.
  - apply balancer_detach_member_shape.
  - intros w. unfold balancer_list_members. by rewrite silent_get_members.
  - apply reading_shape_request_shape, ex_list_balancer_policies_shape.
  - apply reading_shape_request_shape, ex_list_balancer_policy_types_shape.
  - apply reading_shape_request_shape, ex_create_balancer_policy_shape.
  - apply reading_shape_request_shape, ex_delete_balancer_policy_shape.
  - apply reading_shape_request_shape, ex_set_balancer_policies_listener_shape.
  - apply reading_shape_request_shape, ex_set_balancer_policies_backend_server_shape.
  - apply reading_shape_request_shape, ex_create_balancer_listeners_shape.
Qed.

(** X2: in every operation that issues a request, an exception raised by
    the connection on that request comes out of the operation unchanged, and
    the heap is then as it was before the call: no balancer is allocated and
    no cached member list is changed. *)
Theorem operations_propagate_transport_errors self balancer node member
    name port protocol algorithm members zones balancer_id
    policy_name policy_type policy_attributes policies listeners :
  propagates_transport_error self (list_balancers self) ∧
  propagates_transport_error self
    (create_balancer self name port protocol algorithm members zones) ∧
  propagates_transport_error self (destroy_balancer self balancer) ∧
  propagates_transport_error self (get_balancer self balancer_id) ∧
  propagates_transport_error self (balancer_attach_compute_node self balancer node) ∧
  propagates_transport_error self (balancer_detach_member self balancer member) ∧
  propagates_transport_error self (ex_list_balancer_policies self balancer) ∧
  propagates_transport_error self (ex_list_balancer_policy_types self) ∧
  propagates_transport_error self
    (ex_create_balancer_policy self balancer policy_name policy_type policy_attributes) ∧
  propagates_transport_error self (ex_delete_balancer_policy self balancer policy_name) ∧
  propagates_transport_error self
    (ex_set_balancer_policies_listener self balancer port policies) ∧
  propagates_transport_error self
    (ex_set_balancer_policies_backend_server self balancer port policies) ∧
  propagates_transport_error self (ex_create_balancer_listeners self balancer listeners).
Proof.
  repeat apply conj; apply (shape_propagates self).
  - apply list_balancers_shape.
  - apply create_balancer_shape.
  - apply reading_shape_request_shape, destroy_balancer_shape.
  - apply get_balancer_shape.
  - apply balancer_attach_compute_node_shape.
  - apply balancer_detach_member_shape.
  - apply reading_shape_request_shape, ex_list_balancer_policies_shape.
  - apply reading_shape_request_shape, ex_list_balancer_policy_types_shape.
  - apply reading_shape_request_shape, ex_create_balancer_policy_shape.
  - apply reading_shape_request_shape, ex_delete_balancer_policy_shape.
  - apply reading_shape_request_shape, ex_set_balancer_policies_listener_shape.
  - apply reading_shape_request_shape, ex_set_balancer_policies_backend_server_shape.
  - apply reading_shape_request_shape, ex_create_balancer_listeners_shape.
Qed.

Lemma operations_propagate_transport_errors_witness :
  balancer_attach_compute_node (failing_driver "timed out") 0
    {| node_id := VStr "i-2" |} sample_world =
  (Raise (TransportError "timed out"),
   {| heap := heap sample_world;
      sent := sent sample_world ++ [attach_request (VStr "lb1") {| node_id := VStr "i-2" |}] |}).
Proof.
  destruct (operations_propagate_transport_errors (failing_driver "timed out") 0
              {| node_id := VStr "i-2" |}
              {| m_id := VStr "i-1"; m_ip := VNone; m_port := VNone;
                 m_balancer := ObjRef 0 |}
              (VStr "lb1") (VInt 80) "http" VNone [] None (VStr "lb1")
              (VStr "p") (VStr "t") None ItemsNone None)
    as (_ & _ & _ & _ & H & _).
  apply (H sample_world (attach_request (VStr "lb1") {| node_id := VStr "i-2" |})
           (TransportError "timed out")).
  - vm_compute. reflexivity.
  - reflexivity.
Defined.

(** X3: destroying a balancer, listing its cached members, listing policies
    and policy types, and the five policy and listener operations leave the
    heap as it was, whatever their outcome: no balancer object and no cached
    member list is changed, and nothing is allocated. *)
Theorem reading_operations_keep_heap self balancer
    policy_name policy_type policy_attributes port policies listeners :
  keeps_heap (destroy_balancer self balancer) ∧
  keeps_heap (balancer_list_members self balancer) ∧
  keeps_heap (ex_list_balancer_policies self balancer) ∧
  keeps_heap (ex_list_balancer_policy_types self) ∧
  keeps_heap
    (ex_create_balancer_policy self balancer policy_name policy_type policy_attributes) ∧
  keeps_heap (ex_delete_balancer_policy self balancer policy_name) ∧
  keeps_heap (ex_set_balancer_policies_listener self balancer port policies) ∧
  keeps_heap (ex_set_balancer_policies_backend_server self balancer port policies) ∧
  keeps_heap (ex_create_balancer_listeners self balancer listeners).
Proof.
  split; [apply (shape_keeps_heap self), destroy_balancer_shape|].
  split; [intros w; unfold balancer_list_members; by rewrite silent_get_members|].
  repeat apply conj; apply (shape_keeps_heap self).
  - apply ex_list_balancer_policies_shape.
  - apply ex_list_balancer_policy_types_shape.
  - apply ex_create_balancer_policy_shape.
  - apply ex_delete_balancer_policy_shape.
  - apply ex_set_balancer_policies_listener_shape.
  - apply ex_set_balancer_policies_backend_server_shape.
  - apply ex_create_balancer_listeners_shape.
Qed.

(** ** Balancers and their cached members, continued *)

(** X4: [destroy_balancer] issues one DeleteLoadBalancer request carrying
    the balancer's id and, once the connection has answered, returns true
    whatever the status of the response is; the balancer object and its cached
    member list stay on the heap as they were. *)
Theorem destroy_balancer_ignores_status self b w lb r :
  heap w !! b = Some (OBalancer lb) →
  respond (connection self) (sent w) (destroy_request (lb_id lb)) = Ok r →
  destroy_balancer self b w =
  (Ok true, {| heap := heap w; sent := sent w ++ [destroy_request (lb_id lb)] |}).
Proof.
  intros Hb Hr. unfold destroy_balancer. destruct w as [h snt].
  erewrite bind_ok by (by apply get_id_run).
  unfold bind, request, ret. fold (destroy_request (lb_id lb)). simpl in *.
  by rewrite Hr.
Qed.

Lemma destroy_balancer_ignores_status_witness :
  destroy_balancer (sample_driver (sample_describe []) 500) 0 sample_world =
  (Ok true, {| heap := heap sample_world;
               sent := sent sample_world ++ [destroy_request (VStr "lb1")] |}).
Proof.
  apply (destroy_balancer_ignores_status (sample_driver (sample_describe []) 500) 0
           sample_world sample_lb {| object := sample_describe []; status := 500 |});
    reflexivity.
Defined.

(** X5: on a balancer object that has no [_members] attribute,
    [balancer_list_members] fails with AttributeError without any request,
    while [balancer_attach_compute_node] and [balancer_detach_member] fail
    with AttributeError only after their request has been issued and
    answered; the heap stays as it was. *)
Theorem operations_on_balancer_without_members self b node member w lb :
  heap w !! b = Some (OBalancer lb) →
  lb_members lb = None →
  balancer_list_members self b w = (Raise AttributeError, w) ∧
  (∀ r, respond (connection self) (sent w) (attach_request (lb_id lb) node) = Ok r →
     balancer_attach_compute_node self b node w =
     (Raise AttributeError,
      {| heap := heap w; sent := sent w ++ [attach_request (lb_id lb) node] |})) ∧
  (∀ r, respond (connection self) (sent w) (detach_request (lb_id lb) member) = Ok r →
     balancer_detach_member self b member w =
     (Raise AttributeError,
      {| heap := heap w; sent := sent w ++ [detach_request (lb_id lb) member] |})).
Proof.
  intros Hb Hl. destruct w as [h snt]. simpl in *.
  assert (∀ snt', get_members b {| heap := h; sent := snt' |} =
                  (Raise AttributeError, {| heap := h; sent := snt' |})) as Hget.
  { intros snt'. unfold get_members, bind, read_balancer, raise. simpl.
    by rewrite Hb, Hl. }
  split; [apply Hget|]. split; intros r Hr.
  - unfold balancer_attach_compute_node.
    erewrite bind_ok by (by apply get_id_run).
    unfold bind at 1. unfold request. fold (attach_request (lb_id lb) node). simpl.
    rewrite Hr. by erewrite bind_raise by apply Hget.
  - unfold balancer_detach_member.
    erewrite bind_ok by (by apply get_id_run).
    unfold bind at 1. unfold request. fold (detach_request (lb_id lb) member). simpl.
    rewrite Hr. by erewrite bind_raise by apply Hget.
Qed.

Lemma operations_on_balancer_without_members_witness :
  balancer_attach_compute_node (sample_driver (sample_describe []) 200) 0
    {| node_id := VStr "i-2" |} bare_world =
  (Raise AttributeError,
   {| heap := heap bare_world;
      sent := sent bare_world ++
                [attach_request (VStr "lb0") {| node_id := VStr "i-2" |}] |}).
Proof.
  destruct (operations_on_balancer_without_members
              (sample_driver (sample_describe []) 200) 0 {| node_id := VStr "i-2" |}
              {| m_id := VStr "i-2"; m_ip := VNone; m_port := VNone;
                 m_balancer := DriverRef |}
              bare_world bare_lb eq_refl eq_refl) as (_ & H & _).
  apply (H {| object := sample_describe []; status := 200 |}). reflexivity.
Defined.

(** X6: [balancer_attach_compute_node], once its request has been answered,
    changes one object only, the balancer's cached list, by appending at its
    end a member with the node's id and no ip or port; it does not look for
    the id among the members already there, so the number of cached members
    with that id always grows by one. *)
Theorem attach_appends_to_the_list_only self b node w lb l ms r :
  has_members (heap w) b lb l ms →
  respond (connection self) (sent w) (attach_request (lb_id lb) node) = Ok r →
  ∃ w' m,
    balancer_attach_compute_node self b node w = (Ok tt, w') ∧
    sent w' = sent w ++ [attach_request (lb_id lb) node] ∧
    length (heap w') = length (heap w) ∧
    (∀ i, i ≠ l → heap w' !! i = heap w !! i) ∧
    heap w' !! l = Some (OList (ms ++ [m])) ∧
    (m_id m = node_id node ∧ m_ip m = VNone ∧ m_port m = VNone) ∧
    length (filter (λ m, m_id m = node_id node) (ms ++ [m])) =
      S (length (filter (λ m, m_id m = node_id node) ms)).
Proof.
  intros Hm Hr. rewrite (balancer_attach_compute_node_run _ _ _ _ _ _ _ Hm), Hr.
  destruct Hm as (Hb & Hl & Hms).
  eexists _, {| m_id := node_id node; m_ip := VNone; m_port := VNone;
                m_balancer := DriverRef |}.
  split; [reflexivity|]. simpl. split; [done|].
  split; [apply length_insert|].
  split; [intros i Hi; by apply list_lookup_insert_ne|].
  split; [apply list_lookup_insert_eq; by eapply lookup_lt_Some|].
  split; [done|].
  rewrite filter_app, filter_cons_True by done. rewrite length_app. simpl. lia.
Qed.

Lemma attach_appends_to_the_list_only_witness :
  ∃ w' m,
    balancer_attach_compute_node (sample_driver (sample_describe []) 200) 0
      {| node_id := VStr "i-1" |} sample_world = (Ok tt, w') ∧
    heap w' !! 1 =
      Some (OList ([{| m_id := VStr "i-1"; m_ip := VNone; m_port := VNone;
                       m_balancer := ObjRef 0 |}] ++ [m])) ∧
    length (filter (λ m, m_id m = VStr "i-1")
              ([{| m_id := VStr "i-1"; m_ip := VNone; m_port := VNone;
                   m_balancer := ObjRef 0 |}] ++ [m])) = 2.
Proof.
  destruct (attach_appends_to_the_list_only (sample_driver (sample_describe []) 200) 0
              {| node_id := VStr "i-1" |} sample_world sample_lb 1 [sample_member]
              {| object := sample_describe []; status := 200 |}
              ltac:(repeat split) eq_refl)
    as (w' & m & Hrun & _ & _ & _ & Hl & _ & Hn).
  exists w', m. split; [exact Hrun|]. split; [exact Hl | exact Hn].
Defined.

(** X7: [balancer_detach_member], once its request has been answered, does
    not change the list object the balancer cached: it binds [_members] to a
    newly allocated list, so a reference to the former list still shows the
    former members; of the objects that existed, only the balancer itself is
    changed, and in its [_members] attribute only. *)
Theorem detach_rebinds_to_a_new_list self b member w lb l ms r :
  has_members (heap w) b lb l ms →
  respond (connection self) (sent w) (detach_request (lb_id lb) member) = Ok r →
  ∃ w' l',
    balancer_detach_member self b member w = (Ok true, w') ∧
    sent w' = sent w ++ [detach_request (lb_id lb) member] ∧
    l' ≠ l ∧ heap w !! l' = None ∧
    length (heap w') = S (length (heap w)) ∧
    heap w' !! l = Some (OList ms) ∧
    heap w' !! b = Some (OBalancer (with_members lb l')) ∧
    heap w' !! l' = Some (OList (filter (λ m, m_id m ≠ m_id member) ms)) ∧
    (∀ i, i ≠ b → i < length (heap w) → heap w' !! i = heap w !! i).
Proof.
  intros Hm Hr. rewrite (balancer_detach_member_run _ _ _ _ _ _ _ Hm), Hr.
  pose proof (has_members_rebind _ _ _ _ _
    (filter (λ m, m_id m ≠ m_id member) ms) Hm) as (Hb' & _ & Hl').
  destruct Hm as (Hb & Hl & Hms).
  pose proof (lookup_lt_Some _ _ _ Hb) as Hblt.
  pose proof (lookup_lt_Some _ _ _ Hms) as Hllt.
  assert (b ≠ l) as Hne by (intros ->; congruence).
  exists {| heap := <[b := OBalancer (with_members lb (length (heap w)))]>
                      (heap w ++ [OList (filter (λ m, m_id m ≠ m_id member) ms)]);
            sent := sent w ++ [detach_request (lb_id lb) member] |}, (length (heap w)).
  split; [done|]. simpl. split; [done|].
  split; [lia|]. split; [by apply lookup_ge_None|].
  split; [rewrite length_insert, length_app; simpl; lia|].
  split; [rewrite list_lookup_insert_ne by done; by apply lookup_app_l_Some|].
  split; [done|]. split; [done|].
  intros i Hi Hlt. rewrite list_lookup_insert_ne by done. by apply lookup_app_l.
Qed.

Lemma detach_rebinds_to_a_new_list_witness :
  ∃ w' l',
    balancer_detach_member (sample_driver (sample_describe []) 200) 0
      {| m_id := VStr "i-1"; m_ip := VNone; m_port := VNone; m_balancer := ObjRef 0 |}
      sample_world = (Ok true, w') ∧
    l' ≠ 1 ∧
    heap w' !! 1 = Some (OList [{| m_id := VStr "i-1"; m_ip := VNone; m_port := VNone;
                                   m_balancer := ObjRef 0 |}]) ∧
    heap w' !! l' =
      Some (OList (filter (λ m, m_id m ≠ VStr "i-1")
                     [{| m_id := VStr "i-1"; m_ip := VNone; m_port := VNone;
                         m_balancer := ObjRef 0 |}])).
Proof.
  destruct (detach_rebinds_to_a_new_list (sample_driver (sample_describe []) 200) 0
              {| m_id := VStr "i-1"; m_ip := VNone; m_port := VNone;
                 m_balancer := ObjRef 0 |}
              sample_world sample_lb 1 [sample_member]
              {| object := sample_describe []; status := 200 |}
              ltac:(repeat split) eq_refl)
    as (w' & l' & Hrun & _ & Hne & _ & _ & Hold & _ & Hnew & _).
  exists w', l'. auto.
Defined.

Lemma balancer_attach_compute_node_inv self b node w lb l ms w' :
  has_members (heap w) b lb l ms →
  balancer_attach_compute_node self b node w = (Ok tt, w') →
  w' = {| heap := <[l := OList (ms ++ [{| m_id := node_id node; m_ip := VNone;
                                          m_port := VNone; m_balancer := DriverRef |}])]>
                    (heap w);
          sent := sent w ++ [attach_request (lb_id lb) node] |}.
Proof.
  intros Hm Hrun. rewrite (balancer_attach_compute_node_run _ _ _ _ _ _ _ Hm) in Hrun.
  destruct (respond _ _ _); [by injection Hrun as <- | done].
Qed.

Lemma balancer_detach_member_inv self b member w lb l ms v w' :
  has_members (heap w) b lb l ms →
  balancer_detach_member self b member w = (Ok v, w') →
  w' = {| heap := <[b := OBalancer (with_members lb (length (heap w)))]>
                    (heap w ++ [OList (filter (λ m, m_id m ≠ m_id member) ms)]);
          sent := sent w ++ [detach_request (lb_id lb) member] |}.
Proof.
  intros Hm Hrun. rewrite (balancer_detach_member_run _ _ _ _ _ _ _ Hm) in Hrun.
  destruct (respond _ _ _); [by injection Hrun as _ <- | done].
Qed.

(** X8: attaching a node whose id no cached member has and then detaching a
    member with that id gives the balancer a cached list with the content it
    had before the two calls, in the same order. *)
Theorem attach_then_detach_restores_members self b node member w lb l ms w1 w2 :
  has_members (heap w) b lb l ms →
  Forall (λ m, m_id m ≠ node_id node) ms →
  m_id member = node_id node →
  balancer_attach_compute_node self b node w = (Ok tt, w1) →
  balancer_detach_member self b member w1 = (Ok true, w2) →
  ∃ l', has_members (heap w2) b (with_members lb l') l' ms ∧
        heap w2 !! l = Some (OList (ms ++ [{| m_id := node_id node; m_ip := VNone;
                                              m_port := VNone;
                                              m_balancer := DriverRef |}])).
Proof.
  intros Hm Hfresh Hid Ha Hd.
  apply (balancer_attach_compute_node_inv _ _ _ _ _ _ _ _ Hm) in Ha. subst w1.
  set (m := {| m_id := node_id node; m_ip := VNone; m_port := VNone;
               m_balancer := DriverRef |}) in *.
  pose proof (has_members_update _ _ _ _ _ (ms ++ [m]) Hm) as Hm1.
  eapply balancer_detach_member_inv in Hd; [|exact Hm1]. subst w2. simpl.
  assert (filter (λ x, m_id x ≠ m_id member) (ms ++ [m]) = ms) as Hkeep.
  { rewrite filter_app, filter_cons_False, filter_nil, app_nil_r.
    - apply filter_all. by rewrite Hid.
    - simpl. rewrite Hid. by intros []. }
  rewrite Hkeep. eexists. split.
  - by eapply has_members_rebind.
  - destruct Hm1 as (Hb1 & _ & Hl1).
    assert (b ≠ l) as Hne by (intros ->; congruence).
    rewrite list_lookup_insert_ne by done. by apply lookup_app_l_Some.
Qed.

Lemma attach_then_detach_restores_members_witness :
  ∃ l', has_members
          (heap (balancer_detach_member (sample_driver (sample_describe []) 200) 0
                   {| m_id := VStr "i-2"; m_ip := VNone; m_port := VNone;
                      m_balancer := DriverRef |}
                   (balancer_attach_compute_node (sample_driver (sample_describe []) 200)
                      0 {| node_id := VStr "i-2" |} sample_world).2).2)
          0 (with_members sample_lb l') l' [sample_member].
Proof.
  destruct (attach_then_detach_restores_members
              (sample_driver (sample_describe []) 200) 0 {| node_id := VStr "i-2" |}
              {| m_id := VStr "i-2"; m_ip := VNone; m_port := VNone;
                 m_balancer := DriverRef |}
              sample_world sample_lb 1 [sample_member]
              (balancer_attach_compute_node (sample_driver (sample_describe []) 200)
                 0 {| node_id := VStr "i-2" |} sample_world).2
              (balancer_detach_member (sample_driver (sample_describe []) 200) 0
                 {| m_id := VStr "i-2"; m_ip := VNone; m_port := VNone;
                    m_balancer := DriverRef |}
                 (balancer_attach_compute_node (sample_driver (sample_describe []) 200)
                    0 {| node_id := VStr "i-2" |} sample_world).2).2)
    as (l' & H & _).
  - repeat split.
  - repeat constructor. discriminate.
  - reflexivity.
  - vm_compute. reflexivity.
  - vm_compute. reflexivity.
  - by exists l'.
Defined.

Lemma create_balancer_inv self name port protocol algorithm members zones w b w' :
  create_balancer self name port protocol algorithm members zones w = (Ok b, w') →
  ∃ ip rq,
    b = length (heap w) ∧
    w' = {| heap := heap w ++
              [OBalancer {| lb_id := name; lb_name := name; lb_state := PENDING;
                            lb_ip := ip; lb_port := port; lb_driver := DriverRef;
                            lb_members := Some (S (length (heap w))) |};
               OList []];
            sent := sent w ++ [rq] |}.
Proof.
  rewrite create_balancer_run. simpl.
  destruct (respond _ _ _) as [r|e]; [|done]. intros [= <- <-]. eauto.
Qed.

(** X9: balancers created one after the other get member lists of their own:
    after two calls of [create_balancer] and an attach on the first balancer,
    the first balancer's cached list holds the one member attached and the
    second balancer's cached list is still empty. *)
Theorem created_balancers_do_not_share_members self
    name1 port1 protocol1 algorithm1 members1 zones1
    name2 port2 protocol2 algorithm2 members2 zones2 node w b1 w1 b2 w2 w3 :
  create_balancer self name1 port1 protocol1 algorithm1 members1 zones1 w = (Ok b1, w1) →
  create_balancer self name2 port2 protocol2 algorithm2 members2 zones2 w1 = (Ok b2, w2) →
  balancer_attach_compute_node self b1 node w2 = (Ok tt, w3) →
  ∃ lb1 lb2 l1 l2 m,
    b1 ≠ b2 ∧ l1 ≠ l2 ∧
    has_members (heap w3) b1 lb1 l1 [m] ∧ m_id m = node_id node ∧
    has_members (heap w3) b2 lb2 l2 [] ∧
    lb_id lb1 = name1 ∧ lb_id lb2 = name2.
Proof.
  intros H1 H2 H3.
  apply create_balancer_inv in H1 as (ip1 & rq1 & -> & ->).
  apply create_balancer_inv in H2 as (ip2 & rq2 & -> & ->). simpl in *.
  set (n := length (heap w)) in *.
  set (B1 := {| lb_id := name1; lb_name := name1; lb_state := PENDING; lb_ip := ip1;
                lb_port := port1; lb_driver := DriverRef; lb_members := Some (S n) |}) in *.
  set (B2 := {| lb_id := name2; lb_name := name2; lb_state := PENDING; lb_ip := ip2;
                lb_port := port2; lb_driver := DriverRef;
                lb_members := Some (S (length (heap w ++ [OBalancer B1; OList []]))) |})
    in *.
  set (h2 := (heap w ++ [OBalancer B1; OList []])
               ++ [OBalancer B2; OList []]) in *.
  assert (length (heap w ++ [OBalancer B1; OList []]) = n + 2) as Hlen
    by (rewrite length_app; simpl; lia).
  assert (has_members h2 n B1 (S n) []) as Hm1.
  { split; [|split; [done|]].
    - apply lookup_app_l_Some, lookup_new_balancer.
    - apply lookup_app_l_Some, lookup_new_list. }
  assert (has_members h2 (n + 2) B2 (S (n + 2)) []) as Hm2.
  { rewrite <- Hlen. split; [|split; [done|]].
    - apply lookup_new_balancer.
    - apply lookup_new_list. }
  eapply balancer_attach_compute_node_inv in H3; [|exact Hm1]. subst w3. simpl.
  rewrite Hlen.
  exists B1, B2, (S n), (S (n + 2)),
    {| m_id := node_id node; m_ip := VNone; m_port := VNone; m_balancer := DriverRef |}.
  split; [lia|]. split; [lia|].
  split; [apply (has_members_update _ _ _ _ _ ([] ++ [_]) Hm1)|].
  split; [done|]. split; [|done].
  destruct Hm2 as (Hb2 & Hl2 & Hms2). split; [|split; [exact Hl2|]].
  - by rewrite list_lookup_insert_ne by lia.
  - by rewrite list_lookup_insert_ne by lia.
Qed.

Lemma created_balancers_do_not_share_members_witness :
  ∃ lb1 lb2 l1 l2 m w3,
    balancer_attach_compute_node (sample_driver (sample_describe []) 200) 0
      {| node_id := VStr "i-7" |}
      (create_balancer (sample_driver (sample_describe []) 200) (VStr "b") (VInt 443)
         "https" VNone [] None
         (create_balancer (sample_driver (sample_describe []) 200) (VStr "a") (VInt 80)
            "http" VNone [] None empty_world).2).2 = (Ok tt, w3) ∧
    has_members (heap w3) 0 lb1 l1 [m] ∧ m_id m = VStr "i-7" ∧
    has_members (heap w3) 2 lb2 l2 [].
Proof.
  pose (d := sample_driver (sample_describe []) 200).
  pose (w1 := (create_balancer d (VStr "a") (VInt 80) "http" VNone [] None
                 empty_world).2).
  pose (w2 := (create_balancer d (VStr "b") (VInt 443) "https" VNone [] None w1).2).
  pose (w3 := (balancer_attach_compute_node d 0 {| node_id := VStr "i-7" |} w2).2).
  destruct (created_balancers_do_not_share_members d
              (VStr "a") (VInt 80) "http" VNone [] None
              (VStr "b") (VInt 443) "https" VNone [] None
              {| node_id := VStr "i-7" |} empty_world 0 w1 2 w2 w3)
    as (lb1 & lb2 & l1 & l2 & m & _ & _ & H1 & Hid & H2 & _).
  - vm_compute. reflexivity.
  - vm_compute. reflexivity.
  - vm_compute. reflexivity.
  - exists lb1, lb2, l1, l2, m, w3. split; [vm_compute; reflexivity|]. auto.
Defined.

(** ** Parsing, continued *)

(** Where [_to_balancers] puts the balancers it builds: each fragment gives
    two new objects, the balancer and its list, at the end of the heap. *)
Lemma mapM_to_balancer_locs (els : list Element) w :
  ∃ h',
    mapM _to_balancer els w =
      (Ok (imap (λ i _, length (heap w) + 2 * i) els),
       {| heap := heap w ++ h'; sent := sent w |}) ∧
    length h' = 2 * length els ∧
    Forall2 (parsed_from (heap w ++ h')) (imap (λ i _, length (heap w) + 2 * i) els) els.
Proof.
  revert w. induction els as [|el els IH]; intros w.
  - exists []. rewrite app_nil_r. split; [by destruct w|]. split; [done | constructor].
  - pose proof (_to_balancer_parsed el w) as Hp.
    pose proof (_to_balancer_run el w) as Hrun1.
    set (objs := [OBalancer _; OList _]) in Hrun1.
    destruct (IH {| heap := heap w ++ objs; sent := sent w |}) as (h' & Hrun & Hlen & Hall).
    cbn [heap sent] in Hrun, Hall. rewrite Hrun1 in Hp. simpl in Hp.
    assert (imap (λ i _, length (heap w ++ objs) + 2 * i) els =
            imap ((λ i (_ : Element), length (heap w) + 2 * i) ∘ S) els) as Himap.
    { apply imap_ext. intros i x _. rewrite length_app. simpl. lia. }
    rewrite Himap in Hrun, Hall.
    exists (objs ++ h'). rewrite (assoc_L (++)), imap_cons.
    replace (length (heap w) + 2 * 0) with (length (heap w)) by lia.
    split; [|split].
    + simpl. erewrite bind_ok by exact Hrun1. by erewrite bind_ok by exact Hrun.
    + rewrite length_app, Hlen. simpl. lia.
    + constructor; [by apply parsed_from_mono | done].
Qed.




(** X11: [get_balancer], once its request has been answered, builds a
    balancer for every fragment of the response, though it returns only the
    one built from the first fragment; it succeeds exactly when there is a
    fragment, and leaves every object that existed as it was. *)
Theorem get_balancer_returns_first_fragment self balancer_id w r :
  respond (connection self) (sent w) (get_balancer_request balancer_id) = Ok r →
  ∃ h',
    (get_balancer self balancer_id w).2 =
      {| heap := heap w ++ h'; sent := sent w ++ [get_balancer_request balancer_id] |} ∧
    length h' = 2 * length (balancer_fragments (object r)) ∧
    (∀ el rest, balancer_fragments (object r) = el :: rest →
       (get_balancer self balancer_id w).1 = Ok (length (heap w)) ∧
       parsed_from (heap w ++ h') (length (heap w)) el) ∧
    (balancer_fragments (object r) = [] ↔
     (get_balancer self balancer_id w).1 = Raise IndexError) ∧
    (∀ i o, heap w !! i = Some o → (heap w ++ h') !! i = Some o).
Proof.
  intros Hr. set (els := balancer_fragments (object r)).
  destruct (mapM_to_balancer_locs els
    {| heap := heap w; sent := sent w ++ [get_balancer_request balancer_id] |})
    as (h' & Hrun & Hlen & Hall). cbn [heap sent] in Hrun, Hall.
  assert (get_balancer self balancer_id w =
          (subscript (imap (λ i (_ : Element), length (heap w) + 2 * i) els) 0,
           {| heap := heap w ++ h';
              sent := sent w ++ [get_balancer_request balancer_id] |})) as Hget.
  { unfold get_balancer, _to_balancers. unfold bind at 1. unfold request.
    fold (get_balancer_request balancer_id). rewrite Hr.
    unfold bind. fold (balancer_fragments (object r)). fold els. rewrite Hrun.
    unfold lift.
    by destruct (subscript _ 0). }
  exists h'. rewrite Hget. cbn [fst snd]. split; [done|]. split; [done|].
  split; [|split].
  - intros el rest Hels. fold els in Hels. rewrite Hels in *.
    rewrite imap_cons in *. replace (length (heap w) + 2 * 0) with (length (heap w))
      in * by lia.
    split; [reflexivity|]. by inversion Hall.
  - fold els. destruct els as [|el rest]; [done|].
    rewrite imap_cons. split; discriminate.
  - intros i o Hi. by apply lookup_app_l_Some.
Qed.

Lemma get_balancer_returns_first_fragment_witness :
  (get_balancer
     (sample_driver (sample_describe [sample_balancer "lb1" "80" ["i-1"];
                                      sample_balancer "lb2" "443" []]) 200)
     (VStr "lb1") sample_world).1 = Ok 2.
Proof.
  destruct (get_balancer_returns_first_fragment
              (sample_driver (sample_describe [sample_balancer "lb1" "80" ["i-1"];
                                               sample_balancer "lb2" "443" []]) 200)
              (VStr "lb1") sample_world
              {| object := sample_describe [sample_balancer "lb1" "80" ["i-1"];
                                            sample_balancer "lb2" "443" []];
                 status := 200 |} eq_refl)
    as (h' & _ & _ & H & _).
  apply (H (sample_balancer "lb1" "80" ["i-1"]) [sample_balancer "lb2" "443" []]).
  vm_compute. reflexivity.
Defined.

(** X12: each balancer that [list_balancers] returns has as id and as name
    the text found for [LoadBalancerName] in its fragment, as ip the text
    found for [DNSName], the driver as driver, and a cached member list with
    one member per [InstanceId] node of the fragment, in document order: the
    member's id is the text of the node, its ip and port are [None], and its
    balancer is the balancer the list belongs to. *)
Theorem parsed_balancers_fields_and_members self w r :
  respond (connection self) (sent w) list_balancers_request = Ok r →
  ∃ bs,
    (list_balancers self w).1 = Ok bs ∧
    ∀ i b el,
      bs !! i = Some b →
      balancer_fragments (object r) !! i = Some el →
      ∃ lb l ms,
        has_members (heap (list_balancers self w).2) b lb l ms ∧
        lb_id lb = findtext el "LoadBalancerName" NS ∧
        lb_name lb = findtext el "LoadBalancerName" NS ∧
        lb_ip lb = findtext el "DNSName" NS ∧
        lb_driver lb = DriverRef ∧
        length ms = length (findall el "Instances/member/InstanceId" NS) ∧
        ∀ j m node,
          ms !! j = Some m →
          findall el "Instances/member/InstanceId" NS !! j = Some node →
          m_id m = text_value node ∧ m_ip m = VNone ∧ m_port m = VNone ∧
          m_balancer m = ObjRef b.
Proof.
  intros Hr. destruct (list_balancers_run _ _ _ Hr) as (bs & h' & Hrun & Hall).
  rewrite Hrun. exists bs. split; [done|]. cbn [fst snd heap].
  intros i b el Hb Hel.
  destruct (Forall2_lookup_lr _ _ _ _ _ _ Hall Hb Hel) as (l & Hlb & Hl).
  eexists _, l, _. split; [by split|]. cbn [lb_id lb_name lb_ip lb_driver].
  repeat (split; [reflexivity|]). split; [apply length_fmap|].
  intros j m node Hm Hnode. rewrite list_lookup_fmap, Hnode in Hm.
  by injection Hm as <-.
Qed.

Lemma parsed_balancers_fields_and_members_witness :
  ∃ lb l ms,
    has_members
      (heap (list_balancers
               (sample_driver (sample_describe [sample_balancer "lb1" "80" ["i-1"; "i-2"]])
                  200) empty_world).2) 0 lb l ms ∧
    lb_id lb = VStr "lb1" ∧ length ms = 2.
Proof.
  destruct (parsed_balancers_fields_and_members
              (sample_driver (sample_describe [sample_balancer "lb1" "80" ["i-1"; "i-2"]])
                 200) empty_world
              {| object := sample_describe [sample_balancer "lb1" "80" ["i-1"; "i-2"]];
                 status := 200 |} eq_refl) as (bs & Hbs & H).
  assert (bs = [0]) as -> by (vm_compute in Hbs; by injection Hbs).
  destruct (H 0 0 (sample_balancer "lb1" "80" ["i-1"; "i-2"]) eq_refl)
    as (lb & l & ms & Hm & Hid & _ & _ & _ & Hlen & _).
  - vm_compute. reflexivity.
  - exists lb, l, ms. split; [exact Hm|]. split; [exact Hid | exact Hlen].
Defined.

(** ** Listeners, continued *)

Lemma member_key_inj prefix (i j : nat) (s t : string) :
  member_key prefix i s = member_key prefix j t → i = j ∧ s = t.
Proof.
  unfold member_key. intros H. apply (inj (String.append _)) in H.
  apply dotless_app_inv in H as [H ->]; [|apply pretty_nat_dotless..].
  by apply (inj pretty) in H.
Qed.

Lemma format_listener_keys n :
  format_d "Listeners.member.%d.LoadBalancerPort" n =
    member_key "Listeners.member." n "LoadBalancerPort" ∧
  format_d "Listeners.member.%d.InstancePort" n =
    member_key "Listeners.member." n "InstancePort" ∧
  format_d "Listeners.member.%d.Protocol" n =
    member_key "Listeners.member." n "Protocol" ∧
  format_d "Listeners.member.%d.SSLCertificateId" n =
    member_key "Listeners.member." n "SSLCertificateId".
Proof. by repeat split. Qed.

(** A turn of the loop writes keys of its own number only. *)
Lemma listener_block_frame params i listener k :
  (∀ field, k ≠ member_key "Listeners.member." i field) →
  listener_block params i listener !! k = params !! k.
Proof.
  intros Hk. unfold listener_block.
  destruct (format_listener_keys i) as (H0 & H1 & H2 & H3).
  destruct listener as [|x [|y [|p rest]]]; try done.
  rewrite H0, H1, H2, H3.
  destruct (certificate_of _); rewrite !lookup_insert_ne; auto.
Qed.

Lemma listener_block_other params i listener n field :
  n ≠ i →
  listener_block params i listener !! member_key "Listeners.member." n field =
  params !! member_key "Listeners.member." n field.
Proof.
  intros Hn. apply listener_block_frame. intros f H.
  by apply member_key_inj in H as [? _].
Qed.

Lemma listener_block_fields params i x y p rest :
  let block := listener_block params i (x :: y :: p :: rest) in
  block !! member_key "Listeners.member." i "LoadBalancerPort" = Some x ∧
  block !! member_key "Listeners.member." i "InstancePort" = Some y ∧
  block !! member_key "Listeners.member." i "Protocol" = Some p.
Proof.
  intros block. unfold block, listener_block.
  destruct (format_listener_keys i) as (H0 & H1 & H2 & H3).
  rewrite H0, H1, H2, H3.
  assert (∀ f g, f ≠ g → member_key "Listeners.member." i f ≠
                         member_key "Listeners.member." i g) as Hne.
  { intros f g Hfg H. by apply member_key_inj in H as [_ ?]. }
  destruct (certificate_of _); repeat split;
    rewrite ?(lookup_insert_ne _ (member_key _ i "SSLCertificateId")) by (by apply Hne);
    rewrite ?(lookup_insert_ne _ (member_key _ i "Protocol")) by (by apply Hne);
    rewrite ?(lookup_insert_ne _ (member_key _ i "InstancePort")) by (by apply Hne);
    apply lookup_insert_eq.
Qed.

Lemma listener_block_size params i listener :
  listener_ok listener →
  (∀ field, params !! member_key "Listeners.member." i field = None) →
  size (listener_block params i listener) = size params + listener_param_count listener.
Proof.
  intros (x & y & protocol & rest & -> & _) Hfree.
  unfold listener_param_count, listener_block.
  destruct (format_listener_keys i) as (H0 & H1 & H2 & H3).
  rewrite H0, H1, H2, H3.
  assert (∀ f g, f ≠ g → member_key "Listeners.member." i f ≠
                         member_key "Listeners.member." i g) as Hne.
  { intros f g Hfg H. by apply member_key_inj in H as [_ ?]. }
  destruct (certificate_of _);
    rewrite !map_size_insert_None; try lia;
    rewrite ?lookup_insert_ne by (by apply Hne); apply Hfree.
Qed.

Lemma listener_blocks_frame params start listeners k :
  (∀ n field, start < n → k ≠ member_key "Listeners.member." n field) →
  listener_blocks params start listeners !! k = params !! k.
Proof.
  revert params start. induction listeners as [|l ls IH]; intros params start Hk; [done|].
  simpl. rewrite IH by (intros n f Hn; apply Hk; lia).
  apply listener_block_frame. intros f. apply Hk. lia.
Qed.

Lemma listener_blocks_low params start listeners n field :
  n ≤ start →
  listener_blocks params start listeners !! member_key "Listeners.member." n field =
  params !! member_key "Listeners.member." n field.
Proof.
  intros Hn. apply listener_blocks_frame. intros m f Hm H.
  apply member_key_inj in H as [? _]. lia.
Qed.

Lemma listener_blocks_fields params start listeners i x y p rest :
  listeners !! i = Some (x :: y :: p :: rest) →
  let P := listener_blocks params start listeners in
  P !! member_key "Listeners.member." (start + i + 1) "LoadBalancerPort" = Some x ∧
  P !! member_key "Listeners.member." (start + i + 1) "InstancePort" = Some y ∧
  P !! member_key "Listeners.member." (start + i + 1) "Protocol" = Some p.
Proof.
  revert params start i. induction listeners as [|l ls IH]; intros params start i Hi; [done|].
  destruct i as [|i]; simpl in Hi.
  - injection Hi as ->. intros P. unfold P. simpl listener_blocks.
    rewrite !listener_blocks_low by lia.
    replace (start + 0 + 1) with (start + 1) by lia. apply listener_block_fields.
  - replace (start + S i + 1) with (S start + i + 1) by lia. by apply IH.
Qed.

Lemma listener_blocks_size params start listeners :
  Forall listener_ok listeners →
  (∀ n field, start < n → params !! member_key "Listeners.member." n field = None) →
  size (listener_blocks params start listeners) =
  size params + sum_list (listener_param_count <$> listeners).
Proof.
  intros Hok. revert params start.
  induction Hok as [|l ls Hl _ IH]; intros params start Hfree; simpl; [lia|].
  rewrite IH.
  - rewrite listener_block_size; [symmetry; apply Nat.add_assoc | done |].
    intros f. apply Hfree. lia.
  - intros n f Hn. rewrite listener_block_other by lia. apply Hfree. lia.
Qed.

Lemma listeners_base_free id n field :
  listeners_base id !! member_key "Listeners.member." n field = None.
Proof.
  unfold listeners_base, member_key.
  rewrite lookup_insert_ne by discriminate. by rewrite lookup_singleton_ne by discriminate.
Qed.

(** X13: when every listener tuple is accepted, the one request of
    [ex_create_balancer_listeners] carries, for the i-th tuple counted from 1,
    its first element under [Listeners.member.i.LoadBalancerPort], its second
    under [Listeners.member.i.InstancePort] and its third, the protocol as
    given and not upper-cased, under [Listeners.member.i.Protocol]; besides
    the action and the balancer's id there are three parameters per tuple,
    four for a tuple whose certificate is transmitted, and no others. *)
Theorem create_balancer_listeners_blocks self b w lb listeners :
  heap w !! b = Some (OBalancer lb) →
  Forall listener_ok listeners →
  ∃ P : gmap string value,
    sent (ex_create_balancer_listeners self b (Some listeners) w).2 =
      sent w ++ [{| req_path := ROOT; req_params := P |}] ∧
    P !! "Action" = Some (VStr "CreateLoadBalancerListeners") ∧
    P !! "LoadBalancerName" = Some (lb_id lb) ∧
    (∀ i listener,
       listeners !! i = Some listener →
       P !! ("Listeners.member." +:+ pretty (i + 1) +:+ ".LoadBalancerPort") =
         listener !! 0 ∧
       P !! ("Listeners.member." +:+ pretty (i + 1) +:+ ".InstancePort") =
         listener !! 1 ∧
       P !! ("Listeners.member." +:+ pretty (i + 1) +:+ ".Protocol") =
         listener !! 2) ∧
    size P = 2 + sum_list (listener_param_count <$> listeners).
Proof.
  intros Hb Hok.
  exists (listener_blocks (listeners_base (lb_id lb)) 0 listeners).
  split; [|split; [|split; [|split]]].
  - rewrite (ex_create_balancer_listeners_run _ _ _ _ _ Hb). unfold status_op.
    erewrite !(bind_ok (foldM _ _ _)) by (by apply foldM_listener_params_ok).
    apply (status_op_sent self).
  - rewrite listener_blocks_frame by (intros; discriminate). done.
  - rewrite listener_blocks_frame by (intros; discriminate).
    unfold listeners_base. by rewrite lookup_insert_ne, lookup_singleton_eq.
  - intros i listener Hi.
    destruct (Forall_lookup_1 _ _ _ _ Hok Hi) as (x & y & p & rest & -> & _).
    apply (listener_blocks_fields (listeners_base (lb_id lb)) 0) in Hi.
    exact Hi.
  - rewrite listener_blocks_size; [done..|]. intros n f _. apply listeners_base_free.
Qed.

Lemma create_balancer_listeners_blocks_witness :
  ∃ P : gmap string value,
    sent (ex_create_balancer_listeners (sample_driver (sample_describe []) 200) 0
            (Some [[VInt 443; VInt 8443; VStr "https"; VStr "arn:cert"];
                   [VInt 80; VInt 8080; VStr "http"]]) sample_world).2 =
      sent sample_world ++ [{| req_path := ROOT; req_params := P |}] ∧
    P !! ("Listeners.member." +:+ pretty (1 + 1) +:+ ".Protocol") = Some (VStr "http") ∧
    size P = 9.
Proof.
  destruct (create_balancer_listeners_blocks (sample_driver (sample_describe []) 200) 0
              sample_world sample_lb
              [[VInt 443; VInt 8443; VStr "https"; VStr "arn:cert"];
               [VInt 80; VInt 8080; VStr "http"]] eq_refl)
    as (P & Hsent & _ & _ & Hf & Hsize).
  - repeat constructor.
    + exists (VInt 443), (VInt 8443), "https", [VStr "arn:cert"].
      split; [reflexivity | discriminate].
    + exists (VInt 80), (VInt 8080), "http", [].
      split; [reflexivity | intros Htls; vm_compute in Htls; discriminate].
  - exists P. split; [exact Hsent|]. split; [|exact Hsize].
    destruct (Hf 1 [VInt 80; VInt 8080; VStr "http"] eq_refl) as (_ & _ & H). exact H.
Defined.

#[local] Instance listener_ok_dec listener : Decision (listener_ok listener).
Proof.
  destruct listener as [|x [|y [|p rest]]];
    try (right; intros (? & ? & ? & ? & ? & ?); discriminate).
  destruct p as [| |protocol];
    try (right; intros (? & ? & ? & ? & ? & ?); discriminate).
  destruct (is_tls protocol) eqn:Htls.
  - destruct rest as [|c rest].
    + right. intros (? & ? & ? & ? & [= <- <- <- <-] & Hrest). by apply Hrest.
    + left. exists x, y, protocol, (c :: rest). by split.
  - left. by apply listener_ok_no_tls.
Qed.

(** A turn of the loop on a tuple it does not get through: too short, a
    protocol that is no string, or no certificate where one is needed. *)
Lemma listener_params_not_ok params index listener w :
  ¬ listener_ok listener →
  ∃ e, listener_params params (index, listener) w = (Raise e, w) ∧
       (e = IndexError ∨ e = AttributeError).
Proof.
  intros Hno. unfold listener_params, bind, lift, ret, subscript.
  destruct listener as [|x [|y [|p rest]]]; simpl; eauto.
  destruct p as [| |protocol]; simpl; eauto.
  fold (is_tls protocol). destruct (is_tls protocol) eqn:Htls.
  - destruct rest as [|c rest]; simpl; eauto.
    destruct Hno. exists x, y, protocol, (c :: rest). by split.
  - destruct Hno. by apply listener_ok_no_tls.
Qed.

Lemma foldM_listener_params_not_ok params start listeners w :
  ¬ Forall listener_ok listeners →
  ∃ e, foldM listener_params params (enumerate start listeners) w = (Raise e, w) ∧
       (e = IndexError ∨ e = AttributeError).
Proof.
  revert params start. induction listeners as [|l ls IH]; intros params start Hno.
  - destruct Hno. constructor.
  - simpl. destruct (decide (listener_ok l)) as [Hl|Hl].
    + erewrite bind_ok by (by apply listener_params_ok).
      apply IH. intros Hls. apply Hno. by constructor.
    + destruct (listener_params_not_ok params start l w Hl) as (e & Hrun & He).
      exists e. split; [|done]. by erewrite bind_raise by exact Hrun.
Qed.

(** X14: [ex_create_balancer_listeners] sends all listeners or nothing: it
    issues its request exactly when every tuple has three elements, a string
    as protocol and, for HTTPS or SSL, a fourth element; otherwise it fails
    with IndexError or AttributeError and leaves the world as it was, however
    many tuples before the offending one were in order. *)
Theorem create_balancer_listeners_all_or_nothing self b w lb listeners :
  heap w !! b = Some (OBalancer lb) →
  let out := ex_create_balancer_listeners self b (Some listeners) w in
  (Forall listener_ok listeners ↔ ∃ rq, sent out.2 = sent w ++ [rq]) ∧
  (¬ Forall listener_ok listeners →
     ∃ e, out = (Raise e, w) ∧ (e = IndexError ∨ e = AttributeError)).
Proof.
  intros Hb out.
  assert (¬ Forall listener_ok listeners →
          ∃ e, out = (Raise e, w) ∧ (e = IndexError ∨ e = AttributeError)) as Hfail.
  { intros Hno. unfold out. rewrite (ex_create_balancer_listeners_run _ _ _ _ _ Hb).
    destruct (foldM_listener_params_not_ok (listeners_base (lb_id lb)) 0 listeners w Hno)
      as (e & Hrun & He).
    exists e. split; [|done]. unfold status_op. by erewrite bind_raise by exact Hrun. }
  split; [|done]. split.
  - intros Hok. eexists. unfold out.
    rewrite (ex_create_balancer_listeners_run _ _ _ _ _ Hb). unfold status_op.
    erewrite !(bind_ok (foldM _ _ _)) by (by apply foldM_listener_params_ok).
    apply (status_op_sent self).
  - intros [rq Hsent]. destruct (decide (Forall listener_ok listeners)) as [|Hno]; [done|].
    destruct (Hfail Hno) as (e & Hout & _). rewrite Hout in Hsent. simpl in Hsent.
    rewrite <- (app_nil_r (sent w)) in Hsent at 1. by apply (inj (app _)) in Hsent.
Qed.

Lemma create_balancer_listeners_all_or_nothing_witness :
  ∃ e,
    ex_create_balancer_listeners (sample_driver (sample_describe []) 200) 0
      (Some [[VInt 80; VInt 8080; VStr "http"]; [VInt 443; VInt 8443]]) sample_world =
      (Raise e, sample_world) ∧
    (e = IndexError ∨ e = AttributeError).
Proof.
  destruct (create_balancer_listeners_all_or_nothing
              (sample_driver (sample_describe []) 200) 0 sample_world sample_lb
              [[VInt 80; VInt 8080; VStr "http"]; [VInt 443; VInt 8443]] eq_refl)
    as [_ H].
  apply H. intros Hok. inversion Hok as [|? ? _ Hrest]. inversion Hrest as [|? ? Hbad _].
  destruct Hbad as (? & ? & ? & ? & Heq & _). discriminate Heq.
Defined.

(** ** Policy attributes *)

Lemma format_attribute_keys n :
  format_d "PolicyAttributes.member.%d.AttributeName" n =
    member_key "PolicyAttributes.member." n "AttributeName" ∧
  format_d "PolicyAttributes.member.%d.AttributeValue" n =
    member_key "PolicyAttributes.member." n "AttributeValue".
Proof. by split. Qed.

Lemma attribute_params_cons params start name value items :
  attribute_params params start ((name, value) :: items) =
  attribute_params
    (<[member_key "PolicyAttributes.member." start "AttributeValue" := value]>
     (<[member_key "PolicyAttributes.member." start "AttributeName" := name]> params))
    (S start) items.
Proof. reflexivity. Qed.

Lemma attribute_params_frame params start items k :
  (∀ n field, start ≤ n → k ≠ member_key "PolicyAttributes.member." n field) →
  attribute_params params start items !! k = params !! k.
Proof.
  revert params start. induction items as [|[name value] items IH];
    intros params start Hk; [done|].
  rewrite attribute_params_cons, IH by (intros n f Hn; apply Hk; lia).
  rewrite !lookup_insert_ne; [done|..]; apply not_eq_sym, Hk; lia.
Qed.

Lemma attribute_params_lookup params start items i name value :
  items !! i = Some (name, value) →
  attribute_params params start items
    !! member_key "PolicyAttributes.member." (start + i) "AttributeName" = Some name ∧
  attribute_params params start items
    !! member_key "PolicyAttributes.member." (start + i) "AttributeValue" = Some value.
Proof.
  revert params start i. induction items as [|[n v] items IH];
    intros params start i Hi; [done|].
  rewrite attribute_params_cons. destruct i as [|i]; simpl in Hi.
  - injection Hi as -> ->. replace (start + 0) with start by lia.
    rewrite !attribute_params_frame
      by (intros m f Hm H; apply member_key_inj in H as [? _]; lia).
    split; [|apply lookup_insert_eq].
    rewrite lookup_insert_ne; [apply lookup_insert_eq|].
    intros H. by apply member_key_inj in H as [_ ?].
  - replace (start + S i) with (S start + i) by lia. by apply IH.
Qed.

Lemma attribute_params_size params start items :
  (∀ n field, start ≤ n → params !! member_key "PolicyAttributes.member." n field = None) →
  size (attribute_params params start items) = size params + 2 * length items.
Proof.
  revert params start. induction items as [|[name value] items IH];
    intros params start Hfree.
  - unfold attribute_params. simpl. lia.
  - rewrite attribute_params_cons, IH.
    + rewrite !map_size_insert_None; [simpl; lia|..].
      * apply Hfree. lia.
      * rewrite lookup_insert_ne; [apply Hfree; lia|].
        intros H. by apply member_key_inj in H as [_ ?].
    + intros n f Hn. rewrite !lookup_insert_ne; [apply Hfree; lia|..];
        intros H; apply member_key_inj in H as [? _]; lia.
Qed.

Lemma create_policy_base_free id policy_name policy_type n field :
  create_policy_base id policy_name policy_type
    !! member_key "PolicyAttributes.member." n field = None.
Proof.
  unfold create_policy_base, member_key.
  rewrite !lookup_insert_ne by discriminate. by rewrite lookup_singleton_ne by discriminate.
Qed.

Lemma ex_create_balancer_policy_run self b policy_name policy_type attributes w lb :
  heap w !! b = Some (OBalancer lb) →
  ex_create_balancer_policy self b policy_name policy_type attributes w =
  status_op self
    (ret (match attributes with
          | Some items =>
              attribute_params (create_policy_base (lb_id lb) policy_name policy_type)
                1 items
          | None => create_policy_base (lb_id lb) policy_name policy_type
          end)) w.
Proof.
  intros Hb. unfold ex_create_balancer_policy. destruct w as [h snt].
  erewrite bind_ok by (by apply get_id_run). by destruct attributes.
Qed.

(** X15: the one request of [ex_create_balancer_policy] carries the action,
    the balancer's id, the policy name and the policy type, and no more when
    [policy_attributes] is [None] or empty; otherwise the i-th attribute,
    counted from 1 in the order the mapping yields its items, adds its name
    under [PolicyAttributes.member.i.AttributeName] and its value under
    [PolicyAttributes.member.i.AttributeValue], two parameters per attribute
    and nothing else. *)
Theorem create_balancer_policy_params self b policy_name policy_type attributes w lb :
  heap w !! b = Some (OBalancer lb) →
  let base := create_policy_base (lb_id lb) policy_name policy_type in
  let items := default [] attributes in
  ∃ P : gmap string value,
    sent (ex_create_balancer_policy self b policy_name policy_type attributes w).2 =
      sent w ++ [{| req_path := ROOT; req_params := P |}] ∧
    (items = [] → P = base) ∧
    (∀ i name value,
       items !! i = Some (name, value) →
       P !! ("PolicyAttributes.member." +:+ pretty (i + 1) +:+ ".AttributeName") =
         Some name ∧
       P !! ("PolicyAttributes.member." +:+ pretty (i + 1) +:+ ".AttributeValue") =
         Some value) ∧
    (P !! "Action" = Some (VStr "CreateLoadBalancerPolicy") ∧
     P !! "LoadBalancerName" = Some (lb_id lb) ∧
     P !! "PolicyName" = Some policy_name ∧
     P !! "PolicyTypeName" = Some policy_type) ∧
    size P = 4 + 2 * length items.
Proof.
  intros Hb base items. exists (attribute_params base 1 items).
  assert (∀ k, (∀ n field, k ≠ member_key "PolicyAttributes.member." n field) →
               attribute_params base 1 items !! k = base !! k) as Hframe.
  { intros k Hk. apply attribute_params_frame. intros n f _. apply Hk. }
  split; [|split; [|split; [|split]]].
  - rewrite (ex_create_balancer_policy_run _ _ _ _ _ _ _ Hb).
    unfold items, base. destruct attributes; apply (status_op_sent self).
  - by intros ->.
  - intros i name value Hi. replace (i + 1) with (1 + i) by lia.
    by apply attribute_params_lookup.
  - rewrite !Hframe by (intros; discriminate). unfold base, create_policy_base.
    repeat split.
  - rewrite attribute_params_size by (intros; apply create_policy_base_free).
    by replace (size base) with 4.
Qed.

Lemma create_balancer_policy_params_witness :
  ∃ P : gmap string value,
    sent (ex_create_balancer_policy (sample_driver (sample_describe []) 200) 0
            (VStr "EnableProxyProtocol") (VStr "ProxyProtocolPolicyType")
            (Some [(VStr "ProxyProtocol", VStr "true")]) sample_world).2 =
      sent sample_world ++ [{| req_path := ROOT; req_params := P |}] ∧
    P !! ("PolicyAttributes.member." +:+ pretty (0 + 1) +:+ ".AttributeName") =
      Some (VStr "ProxyProtocol") ∧
    size P = 6.
Proof.
  destruct (create_balancer_policy_params (sample_driver (sample_describe []) 200) 0
              (VStr "EnableProxyProtocol") (VStr "ProxyProtocolPolicyType")
              (Some [(VStr "ProxyProtocol", VStr "true")]) sample_world sample_lb eq_refl)
    as (P & Hsent & _ & Hi & _ & Hsize).
  exists P. split; [exact Hsent|]. split; [|exact Hsize].
  destruct (Hi 0 (VStr "ProxyProtocol") (VStr "true") eq_refl) as [H _]. exact H.
Defined.

(** ** Balancer objects are views *)

Lemma get_balancer_located self balancer_id w b w' :
  get_balancer self balancer_id w = (Ok b, w') →
  ∃ r h' el,
    b = length (heap w) ∧
    respond (connection self) (sent w) (get_balancer_request balancer_id) = Ok r ∧
    balancer_fragments (object r) !! 0 = Some el ∧
    w' = {| heap := heap w ++ h';
            sent := sent w ++ [get_balancer_request balancer_id] |} ∧
    parsed_from (heap w ++ h') b el.
Proof.
  intros Hrun.
  destruct (respond (connection self) (sent w) (get_balancer_request balancer_id))
    as [r|e] eqn:Hr.
  - destruct (mapM_to_balancer_locs (balancer_fragments (object r))
      {| heap := heap w; sent := sent w ++ [get_balancer_request balancer_id] |})
      as (h' & Hmap & _ & Hall). cbn [heap sent] in Hmap, Hall.
    unfold get_balancer, _to_balancers in Hrun. unfold bind at 1 in Hrun.
    unfold request in Hrun. fold (get_balancer_request balancer_id) in Hrun.
    rewrite Hr in Hrun. unfold bind in Hrun.
    fold (balancer_fragments (object r)) in Hrun. rewrite Hmap in Hrun.
    destruct (balancer_fragments (object r)) as [|el rest] eqn:Hfr; [done|].
    rewrite imap_cons in Hrun, Hall.
    replace (length (heap w) + 2 * 0) with (length (heap w)) in * by lia.
    injection Hrun as <- <-. exists r, h', el.
    split; [done|]. split; [done|]. split; [by rewrite Hfr|]. split; [done|].
    by inversion Hall.
  - unfold get_balancer, bind, request in Hrun.
    fold (get_balancer_request balancer_id) in Hrun. by rewrite Hr in Hrun.
Qed.

(** X16: the driver keeps no table of balancers: a second [get_balancer] for
    the same id returns a new object, different from the one the first call
    returned; its cached members are those of its own response, while the
    first object keeps its cached list, with the member attached in between. *)
Theorem get_balancer_builds_a_new_view self balancer_id node w b1 w1 w2 b2 w3 :
  get_balancer self balancer_id w = (Ok b1, w1) →
  balancer_attach_compute_node self b1 node w1 = (Ok tt, w2) →
  get_balancer self balancer_id w2 = (Ok b2, w3) →
  ∃ lb1 l1 ms1 m r2 el2 lb2 l2,
    b1 ≠ b2 ∧ l1 ≠ l2 ∧
    has_members (heap w3) b1 lb1 l1 (ms1 ++ [m]) ∧ m_id m = node_id node ∧
    respond (connection self) (sent w2) (get_balancer_request balancer_id) = Ok r2 ∧
    balancer_fragments (object r2) !! 0 = Some el2 ∧
    has_members (heap w3) b2 lb2 l2
      (parsed_member b2 <$> findall el2 "Instances/member/InstanceId" NS).
Proof.
  intros H1 H2 H3.
  apply get_balancer_located in H1 as (r1 & h1 & el1 & -> & _ & _ & -> & Hp1).
  destruct (parsed_members_point_to_balancer _ _ _ Hp1) as (lb1 & l1 & ms1 & Hm1 & _).
  eapply balancer_attach_compute_node_inv in H2; [|exact Hm1]. subst w2.
  set (m := {| m_id := node_id node; m_ip := VNone; m_port := VNone;
               m_balancer := DriverRef |}) in *.
  pose proof (has_members_update _ _ _ _ _ (ms1 ++ [m]) Hm1) as Hm1'.
  apply get_balancer_located in H3 as (r2 & h2 & el2 & -> & Hr2 & Hel2 & -> & Hp2).
  cbn [heap sent] in *.
  destruct Hp2 as (l2 & Hb2 & Hl2).
  destruct Hm1' as (Hb1 & Hlb1 & Hl1).
  pose proof (lookup_lt_Some _ _ _ Hb1) as Hlt1.
  pose proof (lookup_lt_Some _ _ _ Hl1) as Hlt1'.
  exists lb1, l1, ms1, m, r2, el2. eexists _, l2.
  split; [lia|]. split.
  { intros ->. rewrite (lookup_app_l_Some _ _ _ _ Hl1) in Hl2.
    injection Hl2 as Hl2.
    assert (Forall (λ x, m_balancer x = DriverRef) [m]) as Hd by (by repeat constructor).
    assert (Forall (λ x : Member, m_balancer x ≠ DriverRef) (ms1 ++ [m])) as Hnd.
    { rewrite Hl2. by apply Forall_fmap, Forall_true. }
    apply Forall_app in Hnd as [_ Hnd]. by inversion Hnd. }
  split; [split; [|split; [done|]]; by apply lookup_app_l_Some|].
  split; [done|]. split; [done|]. split; [done|]. by split.
Qed.

Lemma get_balancer_builds_a_new_view_witness :
  ∃ lb1 l1 ms1 m lb2 l2 w3,
    get_balancer (sample_driver (sample_describe [sample_balancer "lb1" "80" ["i-1"]]) 200)
      (VStr "lb1")
      (balancer_attach_compute_node
         (sample_driver (sample_describe [sample_balancer "lb1" "80" ["i-1"]]) 200) 0
         {| node_id := VStr "i-2" |}
         (get_balancer
            (sample_driver (sample_describe [sample_balancer "lb1" "80" ["i-1"]]) 200)
            (VStr "lb1") empty_world).2).2 = (Ok 2, w3) ∧
    l1 ≠ l2 ∧
    has_members (heap w3) 0 lb1 l1 (ms1 ++ [m]) ∧ m_id m = VStr "i-2" ∧
    has_members (heap w3) 2 lb2 l2
      (parsed_member 2 <$> findall (sample_balancer "lb1" "80" ["i-1"])
                             "Instances/member/InstanceId" NS).
Proof.
  pose (d := sample_driver (sample_describe [sample_balancer "lb1" "80" ["i-1"]]) 200).
  pose (w1 := (get_balancer d (VStr "lb1") empty_world).2).
  pose (w2 := (balancer_attach_compute_node d 0 {| node_id := VStr "i-2" |} w1).2).
  pose (w3 := (get_balancer d (VStr "lb1") w2).2).
  destruct (get_balancer_builds_a_new_view d (VStr "lb1") {| node_id := VStr "i-2" |}
              empty_world 0 w1 w2 2 w3)
    as (lb1 & l1 & ms1 & m & r2 & el2 & lb2 & l2 & _ & Hne & Hm1 & Hid & Hr2 & Hel2 & Hm2).
  - vm_compute. reflexivity.
  - vm_compute. reflexivity.
  - vm_compute. reflexivity.
  - injection Hr2 as <-. injection Hel2 as <-.
    exists lb1, l1, ms1, m, lb2, l2, w3. split; [vm_compute; reflexivity|]. auto.
Defined.
